(** * trakt-to-letterboxd: the merge of watched and rated movies

    A shallow embedding of [trakt-to-letterboxd.js]: the date helper
    [formatDate] and the three numbered steps of [processTraktData]
    (seed the [Map] from the watched entries, merge the rating entries,
    project the [Map]'s values to the CSV records), followed by the
    properties of the merge.

    Conventions of the embedding.
    - A JSON leaf is a [value]: undefined (an absent property), null, a
      boolean, a number or a string.  Numbers are integers ([Z]): Trakt
      ids, years, ratings and play counts are; [-0] and [0] coincide,
      which agrees with both truthiness and the [Map]'s key equality.
      An object or an array in the place of a leaf is not modelled.
    - A timestamp property is an [option string]: [None] is an absent or
      null property.
    - An entry of an input array is an [option] of an item: [None] is
      the JSON value [null], on which reading [item.movie] raises a
      TypeError.  Any other non-object entry behaves like an object
      without properties.
    - [Date] is the host's: string parsing and the local-time getters are
      the fields of the class [DateHost]. *)

From Stdlib Require Import ZArith List String Ascii Bool Lia.
From Stdlib Require Import DecimalString.
Import ListNotations.

Local Open Scope string_scope.
Local Open Scope list_scope.
Local Open Scope Z_scope.

(** ** JavaScript values *)

Inductive value : Type :=
| VUndefined
| VNull
| VBool (b : bool)
| VNumber (n : Z)
| VString (s : string).

(** ToBoolean. *)
Definition truthy (v : value) : bool :=
  match v with
  | VUndefined | VNull => false
  | VBool b => b
  | VNumber n => negb (n =? 0)
  | VString s => negb (s =? "")%string
  end.

(** [a || b]. *)
Definition js_or (a b : value) : value := if truthy a then a else b.

(** Strict equality [===]; on these values it coincides with the
    SameValueZero comparison of [Map] keys. *)
Definition value_eqb (a b : value) : bool :=
  match a, b with
  | VUndefined, VUndefined => true
  | VNull, VNull => true
  | VBool x, VBool y => Bool.eqb x y
  | VNumber x, VNumber y => x =? y
  | VString x, VString y => (x =? y)%string
  | _, _ => false
  end.

(** ToBoolean of a timestamp property: absent, null and [''] are falsy. *)
Definition present (ts : option string) : bool :=
  match ts with
  | Some s => negb (s =? "")%string
  | None => false
  end.

(** [String(n)] for an integer. *)
Definition String_of (n : Z) : string := NilZero.string_of_int (Z.to_int n).

Fixpoint zeros (n : nat) : string :=
  match n with
  | O => ""
  | S k => String "0" (zeros k)
  end.

(** [s.padStart(targetLength, '0')]. *)
Definition padStart0 (s : string) (targetLength : nat) : string :=
  (zeros (targetLength - String.length s) ++ s)%string.

(** ** The host's Date *)

(** [Date_parse s] is the time value of [new Date(s)] in milliseconds,
    [None] for an Invalid Date (a NaN time value); the getters read a
    valid time value in the local time zone of the process. *)
Class DateHost : Type := {
  Date_parse : string -> option Z;
  getFullYear : Z -> Z;
  getMonth : Z -> Z;
  getDate : Z -> Z
}.

(** ** The input entries *)

Module Ids.
Record t : Type := { trakt : value; imdb : value; tmdb : value }.
End Ids.

Module Movie.
Record t : Type := { ids : option Ids.t; title : value; year : value }.
End Movie.

Module Watched.
Record item : Type := {
  movie : option Movie.t;
  last_watched_at : option string;
  plays : option Z
}.
End Watched.

Module Rating.
Record item : Type := {
  type : value;
  movie : option Movie.t;
  rating : value;
  rated_at : option string
}.
End Rating.

(** ** The console

    What [console.warn] receives. *)
Inductive warning : Type :=
| InvalidDate (dateString : string)
| SkippedWatched (item : Watched.item)
| SkippedRating (item : Rating.item).

(** ** formatDate *)

Section FormatDate.
Context {host : DateHost}.

(** The [catch] branch is not reachable on a string and is left out. *)
Definition formatDate (dateString : option string) : string * list warning :=
  if negb (present dateString) then ("", [])
  else
    match dateString with
    | None => ("", [])
    | Some s =>
        match Date_parse s with
        | None => ("", [InvalidDate s])
        | Some date =>
            let year := getFullYear date in
            let month := padStart0 (String_of (getMonth date + 1)) 2 in
            let day := padStart0 (String_of (getDate date)) 2 in
            ((String_of year ++ "-" ++ month ++ "-" ++ day)%string, [])
        end
    end.

(** [new Date(a) > new Date(b)]: a comparison of time values, false
    as soon as one is NaN.  The source evaluates it on truthy
    timestamps only. *)
Definition Date_gt (a b : option string) : bool :=
  match a, b with
  | Some x, Some y =>
      match Date_parse x, Date_parse y with
      | Some t1, Some t2 => t2 <? t1
      | _, _ => false
      end
  | _, _ => false
  end.
End FormatDate.

(** ** The unified records and the Map that holds them *)

Module MovieInfo.
Record t : Type := {
  traktId : value;
  imdbID : value;
  tmdbID : value;
  Title : value;
  Year : value;
  Rating10 : value;
  WatchedDate : string;
  Rewatch : bool;
  _lastWatchedTimestamp : option string
}.

(** [existing.Rating10 = rating]. *)
Definition with_Rating10 (rating : value) (e : t) : t :=
  {| traktId := traktId e; imdbID := imdbID e; tmdbID := tmdbID e;
     Title := Title e; Year := Year e;
     Rating10 := rating;
     WatchedDate := WatchedDate e; Rewatch := Rewatch e;
     _lastWatchedTimestamp := _lastWatchedTimestamp e |}.

(** [existing.WatchedDate = date]. *)
Definition with_WatchedDate (date : string) (e : t) : t :=
  {| traktId := traktId e; imdbID := imdbID e; tmdbID := tmdbID e;
     Title := Title e; Year := Year e;
     Rating10 := Rating10 e;
     WatchedDate := date; Rewatch := Rewatch e;
     _lastWatchedTimestamp := _lastWatchedTimestamp e |}.
End MovieInfo.

(** A JavaScript [Map] from Trakt ids to unified records, in insertion
    order.  [set] on a key that the map has replaces the value and keeps
    the entry where it is; on a new key it appends. *)
Module JsMap.
Definition t : Type := list (value * MovieInfo.t).

Fixpoint has (k : value) (m : t) : bool :=
  match m with
  | [] => false
  | (k', _) :: m' => if value_eqb k' k then true else has k m'
  end.

Fixpoint get (k : value) (m : t) : option MovieInfo.t :=
  match m with
  | [] => None
  | (k', v) :: m' => if value_eqb k' k then Some v else get k m'
  end.

Fixpoint set (k : value) (v : MovieInfo.t) (m : t) : t :=
  match m with
  | [] => [(k, v)]
  | (k', v') :: m' =>
      if value_eqb k' k then (k', v) :: m' else (k', v') :: set k v m'
  end.

Definition keys (m : t) : list value := map fst m.
Definition values (m : t) : list MovieInfo.t := map snd m.
Definition size (m : t) : nat := List.length m.
End JsMap.

(** The record handed to the CSV writer. *)
Module Csv.
Record t : Type := {
  imdbID : value;
  tmdbID : value;
  Title : value;
  Year : value;
  Rating10 : value;
  WatchedDate : string;
  Rewatch : string
}.
End Csv.

(** ** Exceptions and loops *)

Inductive exn : Type := TypeError.

Inductive result (A : Type) : Type :=
| Ok (a : A)
| Throw (e : exn).
Arguments Ok {A} a.
Arguments Throw {A} e.

Definition bind {A B : Type} (r : result A) (k : A -> result B) : result B :=
  match r with
  | Ok a => k a
  | Throw e => Throw e
  end.

Definition result_map {A B : Type} (f : A -> B) (r : result A) : result B :=
  bind r (fun a => Ok (f a)).

(** [xs.forEach(callback)] over the state the callback mutates; an
    exception leaves the loop. *)
Fixpoint forEach {A S : Type} (callback : A -> S -> result S)
  (xs : list A) (st : S) : result S :=
  match xs with
  | [] => Ok st
  | x :: xs' => bind (callback x st) (forEach callback xs')
  end.

(** ** processTraktData *)

(** The state the two loops share: the map, the two counters of the
    second loop and what was sent to [console.warn]. *)
Record state : Type := {
  mergedMovies : JsMap.t;
  ratingsMergedCount : nat;
  ratingsAddedCount : nat;
  console : list warning
}.

Definition initial : state :=
  {| mergedMovies := []; ratingsMergedCount := 0; ratingsAddedCount := 0;
     console := [] |}.

(** [console.warn(...)]. *)
Definition warn (ws : list warning) (st : state) : state :=
  {| mergedMovies := mergedMovies st;
     ratingsMergedCount := ratingsMergedCount st;
     ratingsAddedCount := ratingsAddedCount st;
     console := console st ++ ws |}.

(** [item.movie && item.movie.ids && item.movie.ids.trakt], with the
    movie and its identifier block when the chain is truthy. *)
Definition movie_ids_trakt (movie : option Movie.t) : option (Movie.t * Ids.t) :=
  match movie with
  | Some mv =>
      match Movie.ids mv with
      | Some i => if truthy (Ids.trakt i) then Some (mv, i) else None
      | None => None
      end
  | None => None
  end.

(** [(item.plays || 0) > 1]. *)
Definition plays_gt_1 (plays : option Z) : bool :=
  match plays with
  | Some n => (if n =? 0 then 0 else n) >? 1
  | None => 0 >? 1
  end.

(** The object literal of lines 71-81: the record a watched entry
    creates. *)
Definition watchedInfo (mv : Movie.t) (i : Ids.t) (item : Watched.item)
  (watchedDate : string) : MovieInfo.t :=
  {| MovieInfo.traktId := Ids.trakt i;
     MovieInfo.imdbID := js_or (Ids.imdb i) (VString "");
     MovieInfo.tmdbID := js_or (Ids.tmdb i) (VString "");
     MovieInfo.Title := js_or (Movie.title mv) (VString "");
     MovieInfo.Year := js_or (Movie.year mv) (VString "");
     MovieInfo.Rating10 := VString "";
     MovieInfo.WatchedDate := watchedDate;
     MovieInfo.Rewatch := plays_gt_1 (Watched.plays item);
     MovieInfo._lastWatchedTimestamp := Watched.last_watched_at item |}.

(** The object literal of lines 119-129: the record a rating entry
    creates when the map has none for its key. *)
Definition ratedInfo (mv : Movie.t) (i : Ids.t) (rating : value)
  (ratedAtDate : string) : MovieInfo.t :=
  {| MovieInfo.traktId := Ids.trakt i;
     MovieInfo.imdbID := js_or (Ids.imdb i) (VString "");
     MovieInfo.tmdbID := js_or (Ids.tmdb i) (VString "");
     MovieInfo.Title := js_or (Movie.title mv) (VString "");
     MovieInfo.Year := js_or (Movie.year mv) (VString "");
     MovieInfo.Rating10 := rating;
     MovieInfo.WatchedDate := ratedAtDate;
     MovieInfo.Rewatch := false;
     MovieInfo._lastWatchedTimestamp := None |}.

(** What a run of [processTraktData] comes to: it returns early when a
    file could not be read, its promise is rejected when a loop throws,
    or the records reach the CSV writer. *)
Inductive outcome : Type :=
| Exited
| Rejected (e : exn)
| Written (rows : list Csv.t) (warnings : list warning).

Section Process.
Context {host : DateHost}.

(** 1. The body of the callback over [watchedData]. *)
Definition watchedItem (item : Watched.item) (st : state) : state :=
  match movie_ids_trakt (Watched.movie item) with
  | Some (mv, i) =>
      let traktId := Ids.trakt i in
      let (watchedDate, w) := formatDate (Watched.last_watched_at item) in
      let movieInfo := watchedInfo mv i item watchedDate in
      {| mergedMovies := JsMap.set traktId movieInfo (mergedMovies st);
         ratingsMergedCount := ratingsMergedCount st;
         ratingsAddedCount := ratingsAddedCount st;
         console := console st ++ w |}
  | None => warn [SkippedWatched item] st
  end.

(** The date decision of the merge (lines 105-113), on the record whose
    rating was just overwritten. *)
Definition mergeDate (ratedAtTimestamp : option string) (ratedAtDate : string)
  (existing : MovieInfo.t) : MovieInfo.t :=
  let existingTimestamp := MovieInfo._lastWatchedTimestamp existing in
  if present ratedAtTimestamp
     && (negb (present existingTimestamp)
         || Date_gt ratedAtTimestamp existingTimestamp)
  then MovieInfo.with_WatchedDate ratedAtDate existing
  else if (MovieInfo.WatchedDate existing =? "")%string
          && negb (ratedAtDate =? "")%string
  then MovieInfo.with_WatchedDate ratedAtDate existing
  else existing.

(** 2. The body of the callback over [ratingsData].  [has] and [get]
    are one lookup here; the update of the object the map holds is a
    [set] at its key, which keeps the entry's place. *)
Definition ratingItem (item : Rating.item) (st : state) : state :=
  if value_eqb (Rating.type item) (VString "movie") then
    match movie_ids_trakt (Rating.movie item) with
    | Some (mv, i) =>
        let traktId := Ids.trakt i in
        let rating := js_or (Rating.rating item) (VString "") in
        let (ratedAtDate, w) := formatDate (Rating.rated_at item) in
        let ratedAtTimestamp := Rating.rated_at item in
        match JsMap.get traktId (mergedMovies st) with
        | Some existing =>
            let existing := MovieInfo.with_Rating10 rating existing in
            let existing := mergeDate ratedAtTimestamp ratedAtDate existing in
            {| mergedMovies := JsMap.set traktId existing (mergedMovies st);
               ratingsMergedCount := S (ratingsMergedCount st);
               ratingsAddedCount := ratingsAddedCount st;
               console := console st ++ w |}
        | None =>
            let movieInfo := ratedInfo mv i rating ratedAtDate in
            {| mergedMovies := JsMap.set traktId movieInfo (mergedMovies st);
               ratingsMergedCount := ratingsMergedCount st;
               ratingsAddedCount := S (ratingsAddedCount st);
               console := console st ++ w |}
        end
    | None => warn [SkippedRating item] st
    end
  else warn [SkippedRating item] st.

(** Reading a property of a [null] entry throws. *)
Definition onEntry {I : Type} (body : I -> state -> state)
  (entry : option I) (st : state) : result state :=
  match entry with
  | Some item => Ok (body item st)
  | None => Throw TypeError
  end.

(** Steps 1 and 2: the two loops, from the empty map. *)
Definition mergeMovies (watchedData : list (option Watched.item))
  (ratingsData : list (option Rating.item)) : result state :=
  bind (forEach (onEntry watchedItem) watchedData initial)
       (forEach (onEntry ratingItem) ratingsData).

(** 3. The projection to the CSV record. *)
Definition toRecord (movie : MovieInfo.t) : Csv.t :=
  {| Csv.imdbID := MovieInfo.imdbID movie;
     Csv.tmdbID := MovieInfo.tmdbID movie;
     Csv.Title := MovieInfo.Title movie;
     Csv.Year := MovieInfo.Year movie;
     Csv.Rating10 := MovieInfo.Rating10 movie;
     Csv.WatchedDate := MovieInfo.WatchedDate movie;
     Csv.Rewatch := if MovieInfo.Rewatch movie then "Yes" else "No" |}.

Definition records (st : state) : list Csv.t :=
  map toRecord (JsMap.values (mergedMovies st)).

(** [None] is the [null] that [readJsonFile] returns on failure; a
    document that parses is taken to be an array. *)
Definition processTraktData
  (watchedData : option (list (option Watched.item)))
  (ratingsData : option (list (option Rating.item))) : outcome :=
  match watchedData, ratingsData with
  | Some ws, Some rs =>
      match mergeMovies ws rs with
      | Ok st => Written (records st) (console st)
      | Throw e => Rejected e
      end
  | _, _ => Exited
  end.
End Process.

(** ** A reference host: UTC, ISO timestamps

    A [DateHost] to run the program on: the process is in the UTC time
    zone.  Its parser reads the form of Trakt's timestamps,
    [YYYY-MM-DDTHH:mm:ssZ] and [YYYY-MM-DDTHH:mm:ss.sssZ], and the
    date-only form [YYYY-MM-DD], all in UTC, the way Node does: a day up
    to 31 is taken in any month and runs over into the next one, and
    the hour 24 is taken with minute, second and millisecond 0.  Every
    other string is an Invalid Date on this host; Node reads more forms
    (a year or a year and month alone, a time without seconds or with
    an offset, and what its legacy parser takes), none of which the
    properties below are evaluated on. *)
Module Utc.

Definition msPerDay : Z := 86400000.

(** Days from 1970-01-01 to the civil date [y]-[m]-[d]. *)
Definition days_from_civil (y m d : Z) : Z :=
  let y' := if m <=? 2 then y - 1 else y in
  let era := y' / 400 in
  let yoe := y' - era * 400 in
  let doy := (153 * (if m >? 2 then m - 3 else m + 9) + 2) / 5 + d - 1 in
  let doe := yoe * 365 + yoe / 4 - yoe / 100 + doy in
  era * 146097 + doe - 719468.

(** The civil date, year, month (1-12) and day, of a day number. *)
Definition civil_from_days (z : Z) : Z * Z * Z :=
  let z := z + 719468 in
  let era := z / 146097 in
  let doe := z - era * 146097 in
  let yoe := (doe - doe / 1460 + doe / 36524 - doe / 146096) / 365 in
  let y := yoe + era * 400 in
  let doy := doe - (365 * yoe + yoe / 4 - yoe / 100) in
  let mp := (5 * doy + 2) / 153 in
  let d := doy - (153 * mp + 2) / 5 + 1 in
  let m := if mp <? 10 then mp + 3 else mp - 9 in
  (if m <=? 2 then y + 1 else y, m, d).

Definition digit (c : ascii) : option Z :=
  let n := Z.of_nat (nat_of_ascii c) in
  if (48 <=? n) && (n <=? 57) then Some (n - 48) else None.

(** Reads exactly [n] decimal digits. *)
Fixpoint number (n : nat) (acc : Z) (s : string) : option (Z * string) :=
  match n with
  | O => Some (acc, s)
  | S k =>
      match s with
      | String c s' =>
          match digit c with
          | Some d => number k (10 * acc + d) s'
          | None => None
          end
      | EmptyString => None
      end
  end.

Definition expect (c : ascii) (s : string) : option string :=
  match s with
  | String c' s' => if Ascii.eqb c c' then Some s' else None
  | EmptyString => None
  end.

Definition andThen {A B : Type} (o : option A) (k : A -> option B) : option B :=
  match o with
  | Some a => k a
  | None => None
  end.

(** The optional [.sss] and the closing [Z]. *)
Definition fraction (s : string) : option Z :=
  match s with
  | "Z" => Some 0
  | String "." s' =>
      andThen (number 3 0 s') (fun '(ms, s'') =>
      match s'' with
      | "Z" => Some ms
      | _ => None
      end)
  | _ => None
  end.

Definition parse (s : string) : option Z :=
  andThen (number 4 0 s) (fun '(y, s) =>
  andThen (expect "-" s) (fun s =>
  andThen (number 2 0 s) (fun '(m, s) =>
  andThen (expect "-" s) (fun s =>
  andThen (number 2 0 s) (fun '(d, s) =>
  let day := days_from_civil y m d in
  if (1 <=? m) && (m <=? 12) && (1 <=? d) && (d <=? 31) then
    match s with
    | EmptyString => Some (day * msPerDay)
    | _ =>
        andThen (expect "T" s) (fun s =>
        andThen (number 2 0 s) (fun '(hh, s) =>
        andThen (expect ":" s) (fun s =>
        andThen (number 2 0 s) (fun '(mm, s) =>
        andThen (expect ":" s) (fun s =>
        andThen (number 2 0 s) (fun '(ss, s) =>
        andThen (fraction s) (fun ms =>
        if ((hh <=? 23) && (mm <=? 59) && (ss <=? 59))
           || ((hh =? 24) && (mm =? 0) && (ss =? 0) && (ms =? 0))
        then Some (day * msPerDay + ((hh * 60 + mm) * 60 + ss) * 1000 + ms)
        else None)))))))
    end
  else None))))).

Definition fullYear (t : Z) : Z := let '(y, _, _) := civil_from_days (t / msPerDay) in y.
Definition month (t : Z) : Z := let '(_, m, _) := civil_from_days (t / msPerDay) in m - 1.
Definition date (t : Z) : Z := let '(_, _, d) := civil_from_days (t / msPerDay) in d.

Definition host : DateHost :=
  {| Date_parse := parse; getFullYear := fullYear; getMonth := month;
     getDate := date |}.

End Utc.


(** ** Vocabulary of the properties *)

(** The join key of an entry that passes the guard of its loop. *)
Definition watchedKey (item : Watched.item) : option value :=
  option_map (fun p => Ids.trakt (snd p)) (movie_ids_trakt (Watched.movie item)).

Definition ratingKey (item : Rating.item) : option value :=
  if value_eqb (Rating.type item) (VString "movie")
  then option_map (fun p => Ids.trakt (snd p)) (movie_ids_trakt (Rating.movie item))
  else None.

(** The join keys of the entries that pass the guard, in input order. *)
Fixpoint joinKeys {I : Type} (key : I -> option value) (l : list I) : list value :=
  match l with
  | [] => []
  | x :: l' =>
      match key x with
      | Some k => k :: joinKeys key l'
      | None => joinKeys key l'
      end
  end.

Definition isKey (k : value) (o : option value) : bool :=
  match o with
  | Some k' => value_eqb k' k
  | None => false
  end.

(** The entries of [l] whose join key is [k]. *)
Definition eventsOf {I : Type} (key : I -> option value) (k : value)
  (l : list I) : list I :=
  filter (fun x => isKey k (key x)) l.

Definition mem (k : value) (ks : list value) : bool :=
  existsb (fun x => value_eqb x k) ks.

(** How many times [k] occurs in [ks]. *)
Definition occurrences (k : value) (ks : list value) : nat :=
  List.length (filter (value_eqb k) ks).

(** [set] on the keys of a map. *)
Definition addKey (ks : list value) (k : value) : list value :=
  if mem k ks then ks else ks ++ [k].

(** The keys of [l] in the order of their first appearance. *)
Fixpoint firstAppearance (l : list value) : list value :=
  match l with
  | [] => []
  | k :: l' => k :: filter (fun x => negb (value_eqb k x)) (firstAppearance l')
  end.

(** The entry has no identifier block: no [movie], or no [movie.ids]. *)
Definition missingIds (movie : option Movie.t) : bool :=
  match movie with
  | Some mv => match Movie.ids mv with Some _ => false | None => true end
  | None => true
  end.

(** The identifier block is there and its [trakt] is [0] or ['']. *)
Definition falsyTrakt (movie : option Movie.t) : bool :=
  match movie with
  | Some mv =>
      match Movie.ids mv with
      | Some i => value_eqb (Ids.trakt i) (VNumber 0)
                  || value_eqb (Ids.trakt i) (VString "")
      | None => false
      end
  | None => false
  end.

(** All of a state but its console. *)
Definition data (st : state) : JsMap.t * nat * nat :=
  (mergedMovies st, ratingsMergedCount st, ratingsAddedCount st).

(** A loop over entries none of which is [null]. *)
Definition run {I : Type} (body : I -> state -> state) (l : list I)
  (st : state) : state :=
  fold_left (fun s item => body item s) l st.

(** The Trakt ids of the map's values, in iteration order: the keys
    the output records stand for, one record each. *)
Definition unifiedIds (st : state) : list value :=
  map MovieInfo.traktId (JsMap.values (mergedMovies st)).

Fixpoint lastOf {A : Type} (l : list A) : option A :=
  match l with
  | [] => None
  | [x] => Some x
  | _ :: l' => lastOf l'
  end.

Definition rewatchOf (o : option MovieInfo.t) : bool :=
  match o with
  | Some e => MovieInfo.Rewatch e
  | None => false
  end.

(** What a merge leaves as it was: every field but the rating and the
    watched date. *)
Definition unchangedByMerge (e e' : MovieInfo.t) : Prop :=
  MovieInfo.traktId e' = MovieInfo.traktId e /\
  MovieInfo.imdbID e' = MovieInfo.imdbID e /\
  MovieInfo.tmdbID e' = MovieInfo.tmdbID e /\
  MovieInfo.Title e' = MovieInfo.Title e /\
  MovieInfo.Year e' = MovieInfo.Year e /\
  MovieInfo.Rewatch e' = MovieInfo.Rewatch e /\
  MovieInfo._lastWatchedTimestamp e' = MovieInfo._lastWatchedTimestamp e.

(** A value of the map carries the key it is stored under. *)
Definition keyed (k : value) (o : option MovieInfo.t) : Prop :=
  forall e, o = Some e -> MovieInfo.traktId e = k.

Section Vocabulary.
Context {host : DateHost}.

(** The time value of a timestamp that is present and parses: a valid
    timestamp. *)
Definition timeValue (ts : option string) : option Z :=
  match ts with
  | Some s => if present ts then Date_parse s else None
  | None => None
  end.

(** What a watched entry does to the record of key [k]. *)
Definition watchedOn (k : value) (item : Watched.item)
  (o : option MovieInfo.t) : option MovieInfo.t :=
  match movie_ids_trakt (Watched.movie item) with
  | Some (mv, i) =>
      if value_eqb (Ids.trakt i) k
      then Some (watchedInfo mv i item
                   (fst (formatDate (Watched.last_watched_at item))))
      else o
  | None => o
  end.

(** What a rating entry does to the record of key [k]. *)
Definition ratingOn (k : value) (item : Rating.item)
  (o : option MovieInfo.t) : option MovieInfo.t :=
  if value_eqb (Rating.type item) (VString "movie") then
    match movie_ids_trakt (Rating.movie item) with
    | Some (mv, i) =>
        if value_eqb (Ids.trakt i) k then
          let rating := js_or (Rating.rating item) (VString "") in
          let ratedAtDate := fst (formatDate (Rating.rated_at item)) in
          match o with
          | Some existing =>
              Some (mergeDate (Rating.rated_at item) ratedAtDate
                      (MovieInfo.with_Rating10 rating existing))
          | None => Some (ratedInfo mv i rating ratedAtDate)
          end
        else o
    | None => o
    end
  else o.

(** The record a watched entry that passes the guard creates. *)
Definition watchedRecord (item : Watched.item) : option MovieInfo.t :=
  match movie_ids_trakt (Watched.movie item) with
  | Some (mv, i) =>
      Some (watchedInfo mv i item
              (fst (formatDate (Watched.last_watched_at item))))
  | None => None
  end.

(** The template literal of [formatDate] on a valid time value. *)
Definition calendarDate (date : Z) : string :=
  (String_of (getFullYear date) ++ "-"
   ++ padStart0 (String_of (getMonth date + 1)) 2 ++ "-"
   ++ padStart0 (String_of (getDate date)) 2)%string.

(** The formatted date of a timestamp. *)
Definition dateOf (ts : option string) : string := fst (formatDate ts).

(** The date of the later of two timestamps; of the valid one when only
    one is valid; empty when none is. *)
Definition laterDate (t1 t2 : option string) : string :=
  match timeValue t1, timeValue t2 with
  | Some v1, Some v2 => if v1 <? v2 then dateOf t2 else dateOf t1
  | Some _, None => dateOf t1
  | None, Some _ => dateOf t2
  | None, None => ""
  end.

(** The date decision in the words of the specification, where the
    first rule asks for a valid [rated_at], to be compared with
    [mergeDate]. *)
Definition mergeDateSpec (ratedAtTimestamp : option string)
  (existing : MovieInfo.t) : MovieInfo.t :=
  let existingTimestamp := MovieInfo._lastWatchedTimestamp existing in
  match timeValue ratedAtTimestamp with
  | Some _ =>
      if negb (present existingTimestamp)
         || Date_gt ratedAtTimestamp existingTimestamp
      then MovieInfo.with_WatchedDate (dateOf ratedAtTimestamp) existing
      else if (MovieInfo.WatchedDate existing =? "")%string
              && negb (dateOf ratedAtTimestamp =? "")%string
      then MovieInfo.with_WatchedDate (dateOf ratedAtTimestamp) existing
      else existing
  | None =>
      if (MovieInfo.WatchedDate existing =? "")%string
         && negb (dateOf ratedAtTimestamp =? "")%string
      then MovieInfo.with_WatchedDate (dateOf ratedAtTimestamp) existing
      else existing
  end.

(** What an entry of each input sends to [console.warn]; nothing is
    reached on a [null] entry. *)
Definition watchedWarnings (entry : option Watched.item) : list warning :=
  match entry with
  | Some item =>
      match watchedKey item with
      | Some _ => snd (formatDate (Watched.last_watched_at item))
      | None => [SkippedWatched item]
      end
  | None => []
  end.

Definition ratingWarnings (entry : option Rating.item) : list warning :=
  match entry with
  | Some item =>
      match ratingKey item with
      | Some _ => snd (formatDate (Rating.rated_at item))
      | None => [SkippedRating item]
      end
  | None => []
  end.
End Vocabulary.

(** What it is for the run to skip a watched entry: the callback does
    not throw on it and only warns; wherever the entry stands in the
    input, the run comes to the records it comes to without it (and
    throws when that run throws); and the two consoles differ by the
    warning that names the entry. *)
Definition skipsWatched {host : DateHost} (bad : Watched.item) : Prop :=
  (forall st, onEntry watchedItem (Some bad) st
              = Ok (warn [SkippedWatched bad] st)) /\
  (forall ws1 ws2 rs,
      result_map records (mergeMovies (ws1 ++ Some bad :: ws2) rs)
      = result_map records (mergeMovies (ws1 ++ ws2) rs)) /\
  (forall ws1 ws2 rs st,
      mergeMovies (ws1 ++ Some bad :: ws2) rs = Ok st ->
      exists st' c1 c2,
        mergeMovies (ws1 ++ ws2) rs = Ok st' /\
        records st = records st' /\
        console st = c1 ++ SkippedWatched bad :: c2 /\
        console st' = c1 ++ c2) /\
  (forall ws1 ws2 rs,
      exists rows c c',
        processTraktData (Some (map Some (ws1 ++ bad :: ws2))) (Some (map Some rs))
        = Written rows c /\
        processTraktData (Some (map Some (ws1 ++ ws2))) (Some (map Some rs))
        = Written rows c').

(** The same for a rating entry. *)
Definition skipsRating {host : DateHost} (bad : Rating.item) : Prop :=
  (forall st, onEntry ratingItem (Some bad) st
              = Ok (warn [SkippedRating bad] st)) /\
  (forall ws rs1 rs2,
      result_map records (mergeMovies ws (rs1 ++ Some bad :: rs2))
      = result_map records (mergeMovies ws (rs1 ++ rs2))) /\
  (forall ws rs1 rs2 st,
      mergeMovies ws (rs1 ++ Some bad :: rs2) = Ok st ->
      exists st' c1 c2,
        mergeMovies ws (rs1 ++ rs2) = Ok st' /\
        records st = records st' /\
        console st = c1 ++ SkippedRating bad :: c2 /\
        console st' = c1 ++ c2) /\
  (forall ws rs1 rs2,
      exists rows c c',
        processTraktData (Some (map Some ws)) (Some (map Some (rs1 ++ bad :: rs2)))
        = Written rows c /\
        processTraktData (Some (map Some ws)) (Some (map Some (rs1 ++ rs2)))
        = Written rows c').

(** ** Sample entries *)

Module Sample.

Definition ids1 : Ids.t :=
  {| Ids.trakt := VNumber 1; Ids.imdb := VString "tt1"; Ids.tmdb := VUndefined |}.

Definition movie1 : Movie.t :=
  {| Movie.ids := Some ids1; Movie.title := VString "A"; Movie.year := VNumber 2000 |}.

(** The example scenario of the specification. *)
Definition watched1 : Watched.item :=
  {| Watched.movie := Some movie1;
     Watched.last_watched_at := Some "2021-01-01T00:00:00Z";
     Watched.plays := Some 2 |}.

Definition rated1 : Rating.item :=
  {| Rating.type := VString "movie";
     Rating.movie :=
       Some {| Movie.ids := Some {| Ids.trakt := VNumber 1; Ids.imdb := VUndefined;
                                    Ids.tmdb := VUndefined |};
               Movie.title := VUndefined; Movie.year := VUndefined |};
     Rating.rating := VNumber 8;
     Rating.rated_at := Some "2021-06-01T00:00:00Z" |}.

(** A rating entry of movie 1 without a [rating]. *)
Definition unrated1 : Rating.item :=
  {| Rating.type := VString "movie"; Rating.movie := Some movie1;
     Rating.rating := VUndefined;
     Rating.rated_at := Some "2021-06-01T12:00:00.000Z" |}.

(** A rating entry of movie 2, which no watched entry has. *)
Definition rated2 : Rating.item :=
  {| Rating.type := VString "movie";
     Rating.movie :=
       Some {| Movie.ids := Some {| Ids.trakt := VNumber 2; Ids.imdb := VUndefined;
                                    Ids.tmdb := VUndefined |};
               Movie.title := VUndefined; Movie.year := VUndefined |};
     Rating.rating := VNumber 8;
     Rating.rated_at := Some "2021-06-01T12:00:00.000Z" |}.

(** A second rating entry of movie 2, whose [rated_at] is no date. *)
Definition rated2_garbage : Rating.item :=
  {| Rating.type := VString "movie";
     Rating.movie :=
       Some {| Movie.ids := Some {| Ids.trakt := VNumber 2; Ids.imdb := VUndefined;
                                    Ids.tmdb := VUndefined |};
               Movie.title := VUndefined; Movie.year := VUndefined |};
     Rating.rating := VNumber 7;
     Rating.rated_at := Some "garbage" |}.

(** Entries without an identifier block, and a rating of a show. *)
Definition watched_no_movie : Watched.item :=
  {| Watched.movie := None;
     Watched.last_watched_at := Some "2021-01-01T00:00:00Z";
     Watched.plays := Some 1 |}.

Definition rated_show : Rating.item :=
  {| Rating.type := VString "show"; Rating.movie := Some movie1;
     Rating.rating := VNumber 9;
     Rating.rated_at := Some "2021-06-01T00:00:00Z" |}.

(** Entries whose [trakt] is 0 and ['']. *)
Definition movie_trakt (trakt : value) : Movie.t :=
  {| Movie.ids := Some {| Ids.trakt := trakt; Ids.imdb := VString "tt2";
                          Ids.tmdb := VNumber 22 |};
     Movie.title := VString "B"; Movie.year := VNumber 1999 |}.

Definition watched_trakt0 : Watched.item :=
  {| Watched.movie := Some (movie_trakt (VNumber 0));
     Watched.last_watched_at := Some "2021-01-01T00:00:00Z";
     Watched.plays := Some 3 |}.

Definition rated_trakt_empty : Rating.item :=
  {| Rating.type := VString "movie";
     Rating.movie := Some (movie_trakt (VString ""));
     Rating.rating := VNumber 5;
     Rating.rated_at := Some "2021-06-01T00:00:00Z" |}.

(** A rating entry of movie 1 whose [rating] is 0. *)
Definition rated1_zero : Rating.item :=
  {| Rating.type := VString "movie"; Rating.movie := Some movie1;
     Rating.rating := VNumber 0;
     Rating.rated_at := None |}.

End Sample.

(** The state after the watched entry of the example scenario, and the
    record it holds, on the reference host. *)
Module Seeded.

Definition st : state := @run Watched.item (@watchedItem Utc.host) [Sample.watched1] initial.

Definition info : MovieInfo.t :=
  watchedInfo Sample.movie1 Sample.ids1 Sample.watched1 "2021-01-01".

(** The record that the rating entry [Sample.rated2] creates. *)
Definition rated : MovieInfo.t :=
  {| MovieInfo.traktId := VNumber 2;
     MovieInfo.imdbID := VString "";
     MovieInfo.tmdbID := VString "";
     MovieInfo.Title := VString "";
     MovieInfo.Year := VString "";
     MovieInfo.Rating10 := VNumber 8;
     MovieInfo.WatchedDate := "2021-06-01";
     MovieInfo.Rewatch := false;
     MovieInfo._lastWatchedTimestamp := None |}.

End Seeded.

(** ** A host whose calendar steps back

    The zone America/St_Johns around the end of daylight time in 2010:
    local time is UTC-2:30 until 00:01 on 7 November (02:31 UTC), when
    the clock goes back to 23:01 on 6 November, and UTC-3:30 from then
    on.  The offsets are those of the zone between its changes of March
    2010 and March 2011; the parser is the reference host's. *)
Module Newfoundland.

Definition endOfDaylightTime : Z :=
  match Utc.parse "2010-11-07T02:31:00Z" with
  | Some t => t
  | None => 0
  end.

(** Local time as a time value. *)
Definition localTime (t : Z) : Z :=
  if t <? endOfDaylightTime then t - 150 * 60000 else t - 210 * 60000.

Definition host : DateHost :=
  {| Date_parse := Utc.parse;
     getFullYear := fun t => Utc.fullYear (localTime t);
     getMonth := fun t => Utc.month (localTime t);
     getDate := fun t => Utc.date (localTime t) |}.

Definition movie3 : Movie.t :=
  {| Movie.ids := Some {| Ids.trakt := VNumber 3; Ids.imdb := VString "tt3";
                          Ids.tmdb := VUndefined |};
     Movie.title := VString "C"; Movie.year := VNumber 2010 |}.

(** Watched half a minute past local midnight, on 7 November. *)
Definition watched3 : Watched.item :=
  {| Watched.movie := Some movie3;
     Watched.last_watched_at := Some "2010-11-07T02:30:30Z";
     Watched.plays := Some 1 |}.

(** Rated half an hour later, at 23:30 on 6 November. *)
Definition rated3 : Rating.item :=
  {| Rating.type := VString "movie"; Rating.movie := Some movie3;
     Rating.rating := VNumber 6;
     Rating.rated_at := Some "2010-11-07T03:00:00Z" |}.

End Newfoundland.

Section CalendarOrder.
Context {host : DateHost}.

(** The local calendar date of the time value [v1] is before that of
    [v2]: year, then month, then day. *)
Definition dateBefore (v1 v2 : Z) : bool :=
  (getFullYear v1 <? getFullYear v2)
  || ((getFullYear v1 =? getFullYear v2)
      && ((getMonth v1 <? getMonth v2)
          || ((getMonth v1 =? getMonth v2) && (getDate v1 <? getDate v2)))).

(** The later of the two formatted dates, in the words of the
    specification, to be compared with [laterDate]: of two valid
    timestamps, the formatted date that is the later calendar date. *)
Definition laterOfDates (t1 t2 : option string) : string :=
  match timeValue t1, timeValue t2 with
  | Some v1, Some v2 => if dateBefore v1 v2 then dateOf t2 else dateOf t1
  | Some _, None => dateOf t1
  | None, Some _ => dateOf t2
  | None, None => ""
  end.
End CalendarOrder.

(** ** Vocabulary of the further properties *)

(** A field as [x || ''] leaves it: a truthy value or the empty string. *)
Definition defaulted (v : value) : bool :=
  truthy v || value_eqb v (VString "").

(** No field of the row is [undefined], [null], [false] or [0]. *)
Definition cleanRow (row : Csv.t) : bool :=
  defaulted (Csv.imdbID row) && defaulted (Csv.tmdbID row)
  && defaulted (Csv.Title row) && defaulted (Csv.Year row)
  && defaulted (Csv.Rating10 row).

Definition hasRatedAt (r : Rating.item) : bool := present (Rating.rated_at r).

Definition dateOfRecord (o : option MovieInfo.t) : string :=
  match o with
  | Some e => MovieInfo.WatchedDate e
  | None => ""
  end.

(** The rating entry has a valid [rated_at] strictly after the time
    value [t1]. *)
Definition ratedAfter {host : DateHost} (t1 : Z) (r : Rating.item) : bool :=
  match timeValue (Rating.rated_at r) with
  | Some t2 => t1 <? t2
  | None => false
  end.

(** The timestamp sends nothing to the console: it is absent or empty,
    or it is a date. *)
Definition silent {host : DateHost} (ts : option string) : Prop :=
  present ts = true -> timeValue ts <> None.

(** ** Values and the Map *)

Lemma value_eqb_eq (a b : value) : value_eqb a b = true <-> a = b.
Proof.
  destruct a, b; simpl; split; intro H; try congruence; try reflexivity.
  - apply Bool.eqb_prop in H. now subst.
  - injection H as ->. apply Bool.eqb_reflx.
  - apply Z.eqb_eq in H. now subst.
  - injection H as ->. apply Z.eqb_refl.
  - apply String.eqb_eq in H. now subst.
  - injection H as ->. apply String.eqb_refl.
Qed.

Lemma value_eqb_refl (a : value) : value_eqb a a = true.
Proof. now apply value_eqb_eq. Qed.

Lemma value_eqb_neq (a b : value) : value_eqb a b = false <-> a <> b.
Proof.
  split.
  - intros H E. apply value_eqb_eq in E. congruence.
  - intro H. destruct (value_eqb a b) eqn:E; [|reflexivity].
    apply value_eqb_eq in E. contradiction.
Qed.

Lemma value_eqb_sym (a b : value) : value_eqb a b = value_eqb b a.
Proof.
  destruct (value_eqb a b) eqn:E; symmetry.
  - apply value_eqb_eq. apply value_eqb_eq in E. auto.
  - apply value_eqb_neq. apply value_eqb_neq in E. auto.
Qed.

Lemma mem_In (k : value) (ks : list value) : mem k ks = true <-> In k ks.
Proof.
  unfold mem. rewrite existsb_exists. split.
  - intros (x & Hx & E). apply value_eqb_eq in E. now subst.
  - intro H. exists k. split; [assumption | apply value_eqb_refl].
Qed.

Lemma mem_not_In (k : value) (ks : list value) : mem k ks = false <-> ~ In k ks.
Proof.
  rewrite <- mem_In. destruct (mem k ks); split; congruence.
Qed.

Module JsMapFacts.
Import JsMap.

Lemma has_mem k m : has k m = mem k (keys m).
Proof.
  induction m as [|[k' v'] m IH]; simpl; [reflexivity|].
  destruct (value_eqb k' k); simpl; auto.
Qed.

Lemma has_get k m : has k m = match get k m with Some _ => true | None => false end.
Proof.
  induction m as [|[k' v'] m IH]; simpl; [reflexivity|].
  destruct (value_eqb k' k); auto.
Qed.

Lemma get_set k v k' m :
  get k' (set k v m) = if value_eqb k k' then Some v else get k' m.
Proof.
  induction m as [|[k0 v0] m IH]; simpl.
  - reflexivity.
  - destruct (value_eqb k0 k) eqn:E0; simpl.
    + apply value_eqb_eq in E0. subst k0.
      destruct (value_eqb k k'); reflexivity.
    + rewrite IH. destruct (value_eqb k0 k') eqn:E1; [|reflexivity].
      apply value_eqb_eq in E1. subst k0. now rewrite value_eqb_sym, E0.
Qed.

Lemma keys_set k v m :
  keys (set k v m) = if mem k (keys m) then keys m else keys m ++ [k].
Proof.
  unfold keys, mem. induction m as [|[k0 v0] m IH]; simpl.
  - reflexivity.
  - destruct (value_eqb k0 k) eqn:E0; simpl; [reflexivity|].
    rewrite IH. now destruct (existsb _ (map fst m)).
Qed.

Lemma get_None_keys k m : get k m = None <-> ~ In k (keys m).
Proof.
  rewrite <- mem_not_In, <- has_mem, has_get. destruct (get k m); split; congruence.
Qed.

Lemma get_In k v m : get k m = Some v -> In (k, v) m.
Proof.
  induction m as [|[k0 v0] m IH]; simpl; [discriminate|].
  destruct (value_eqb k0 k) eqn:E.
  - apply value_eqb_eq in E. intros [= ->]. left. now subst.
  - auto.
Qed.

Lemma In_get k v m : NoDup (keys m) -> In (k, v) m -> get k m = Some v.
Proof.
  induction m as [|[k0 v0] m IH]; simpl; [contradiction|].
  intros Hnd [E | Hin].
  - injection E as -> ->. now rewrite value_eqb_refl.
  - apply NoDup_cons_iff in Hnd as [Hk0 Hnd].
    destruct (value_eqb k0 k) eqn:E; [|auto].
    apply value_eqb_eq in E. subst k0. exfalso. apply Hk0.
    change (In (fst (k, v)) (map fst m)). now apply in_map.
Qed.

End JsMapFacts.

(** ** First appearances *)

Lemma filter_filter_and {A : Type} (f g : A -> bool) (l : list A) :
  filter f (filter g l) = filter (fun x => g x && f x) l.
Proof.
  induction l as [|x l IH]; simpl; [reflexivity|].
  destruct (g x); simpl; [destruct (f x)|]; now rewrite IH.
Qed.

Lemma mem_app k a b : mem k (a ++ b) = mem k a || mem k b.
Proof. unfold mem. apply existsb_app. Qed.

Lemma fold_addKey (l acc : list value) :
  fold_left addKey l acc
  = acc ++ filter (fun x => negb (mem x acc)) (firstAppearance l).
Proof.
  revert acc. induction l as [|k l IH]; intro acc; simpl.
  - now rewrite app_nil_r.
  - rewrite IH. unfold addKey. destruct (mem k acc) eqn:Hk; simpl.
    + f_equal. rewrite filter_filter_and. apply filter_ext_in. intros x _.
      destruct (value_eqb k x) eqn:E; simpl; [|reflexivity].
      apply value_eqb_eq in E. subst x. now rewrite Hk.
    + rewrite <- app_assoc. simpl. do 2 f_equal.
      rewrite filter_filter_and. apply filter_ext_in. intros x _.
      rewrite mem_app. simpl. rewrite orb_false_r, negb_orb.
      now rewrite andb_comm.
Qed.

Lemma firstAppearance_fold (l : list value) :
  firstAppearance l = fold_left addKey l [].
Proof.
  rewrite fold_addKey. unfold mem. simpl.
  induction (firstAppearance l) as [|x xs IH]; simpl; congruence.
Qed.

Lemma In_firstAppearance k l : In k (firstAppearance l) <-> In k l.
Proof.
  induction l as [|x l IH]; simpl; [tauto|].
  rewrite filter_In, IH. split.
  - intros [H | [H _]]; auto.
  - intros [H | H]; [now left|].
    destruct (value_eqb x k) eqn:E.
    + left. now apply value_eqb_eq.
    + right. auto.
Qed.

Lemma NoDup_firstAppearance l : NoDup (firstAppearance l).
Proof.
  induction l as [|x l IH]; simpl; constructor.
  - rewrite filter_In. intros [_ H]. now rewrite value_eqb_refl in H.
  - now apply NoDup_filter.
Qed.

Lemma firstAppearance_app a b :
  firstAppearance (a ++ b)
  = firstAppearance a ++ filter (fun x => negb (mem x a)) (firstAppearance b).
Proof.
  rewrite (firstAppearance_fold (a ++ b)), fold_left_app,
    <- firstAppearance_fold, fold_addKey.
  f_equal. apply filter_ext_in. intros x _. f_equal.
  destruct (mem x a) eqn:E.
  - apply mem_In. apply In_firstAppearance. now apply mem_In.
  - apply mem_not_In. rewrite In_firstAppearance. now apply mem_not_In.
Qed.

Lemma occurrences_NoDup k ks :
  NoDup ks -> In k ks -> occurrences k ks = 1%nat.
Proof.
  unfold occurrences. induction 1 as [|x l Hx Hnd IH]; simpl; [contradiction|].
  intros [E | Hin].
  - subst x. rewrite value_eqb_refl. simpl. f_equal.
    rewrite (proj2 (length_zero_iff_nil _)); [reflexivity|].
    destruct (filter (value_eqb k) l) as [|y ys] eqn:F; [reflexivity|].
    assert (Hy : In y (filter (value_eqb k) l)) by (rewrite F; now left).
    apply filter_In in Hy as [Hy E]. apply value_eqb_eq in E. now subst y.
  - destruct (value_eqb k x) eqn:E; [|auto].
    apply value_eqb_eq in E. now subst x.
Qed.

Lemma occurrences_not_In k ks : ~ In k ks -> occurrences k ks = 0%nat.
Proof.
  unfold occurrences. intro H.
  destruct (filter (value_eqb k) ks) as [|y ys] eqn:F; [reflexivity|].
  assert (Hy : In y (filter (value_eqb k) ks)) by (rewrite F; now left).
  apply filter_In in Hy as [Hy E]. apply value_eqb_eq in E. now subst y.
Qed.

Lemma In_joinKeys {I : Type} (key : I -> option value) k (l : list I) :
  In k (joinKeys key l) <-> exists x, In x l /\ key x = Some k.
Proof.
  induction l as [|x l IH]; simpl.
  - split; [contradiction | intros (x & [] & _)].
  - destruct (key x) as [k'|] eqn:E; simpl; rewrite IH; split.
    + intros [-> | (y & Hy & Ey)]; eauto.
    + intros (y & [-> | Hy] & Ey); [left; congruence | eauto].
    + intros (y & Hy & Ey); eauto.
    + intros (y & [-> | Hy] & Ey); [congruence | eauto].
Qed.

Lemma joinKeys_app {I : Type} (key : I -> option value) (a b : list I) :
  joinKeys key (a ++ b) = joinKeys key a ++ joinKeys key b.
Proof.
  induction a as [|x a IH]; simpl; [reflexivity|].
  destruct (key x); simpl; now rewrite IH.
Qed.

(** ** The two callbacks, seen from one key *)

Section Steps.
Context {host : DateHost}.

Lemma mergedMovies_watchedItem item st :
  mergedMovies (watchedItem item st)
  = match movie_ids_trakt (Watched.movie item) with
    | Some (mv, i) =>
        JsMap.set (Ids.trakt i)
          (watchedInfo mv i item (fst (formatDate (Watched.last_watched_at item))))
          (mergedMovies st)
    | None => mergedMovies st
    end.
Proof.
  unfold watchedItem.
  destruct (movie_ids_trakt (Watched.movie item)) as [[mv i]|]; [|reflexivity].
  now destruct (formatDate (Watched.last_watched_at item)).
Qed.

Lemma get_watchedItem k item st :
  JsMap.get k (mergedMovies (watchedItem item st))
  = watchedOn k item (JsMap.get k (mergedMovies st)).
Proof.
  rewrite mergedMovies_watchedItem. unfold watchedOn.
  destruct (movie_ids_trakt (Watched.movie item)) as [[mv i]|]; [|reflexivity].
  apply JsMapFacts.get_set.
Qed.

Lemma get_ratingItem k item st :
  JsMap.get k (mergedMovies (ratingItem item st))
  = ratingOn k item (JsMap.get k (mergedMovies st)).
Proof.
  unfold ratingItem, ratingOn.
  destruct (value_eqb (Rating.type item) (VString "movie")); [|reflexivity].
  destruct (movie_ids_trakt (Rating.movie item)) as [[mv i]|]; [|reflexivity].
  destruct (formatDate (Rating.rated_at item)) as [d w]. simpl.
  destruct (value_eqb (Ids.trakt i) k) eqn:E.
  - apply value_eqb_eq in E. subst k.
    destruct (JsMap.get (Ids.trakt i) (mergedMovies st)); simpl;
      now rewrite JsMapFacts.get_set, value_eqb_refl.
  - destruct (JsMap.get (Ids.trakt i) (mergedMovies st)); simpl;
      now rewrite JsMapFacts.get_set, E.
Qed.

Lemma keys_watchedItem item st :
  JsMap.keys (mergedMovies (watchedItem item st))
  = match watchedKey item with
    | Some k => addKey (JsMap.keys (mergedMovies st)) k
    | None => JsMap.keys (mergedMovies st)
    end.
Proof.
  rewrite mergedMovies_watchedItem. unfold watchedKey.
  destruct (movie_ids_trakt (Watched.movie item)) as [[mv i]|]; [|reflexivity].
  apply JsMapFacts.keys_set.
Qed.

Lemma keys_ratingItem item st :
  JsMap.keys (mergedMovies (ratingItem item st))
  = match ratingKey item with
    | Some k => addKey (JsMap.keys (mergedMovies st)) k
    | None => JsMap.keys (mergedMovies st)
    end.
Proof.
  unfold ratingItem, ratingKey.
  destruct (value_eqb (Rating.type item) (VString "movie")); [|reflexivity].
  destruct (movie_ids_trakt (Rating.movie item)) as [[mv i]|]; [|reflexivity].
  destruct (formatDate (Rating.rated_at item)) as [d w]. simpl.
  destruct (JsMap.get (Ids.trakt i) (mergedMovies st)); simpl;
    apply JsMapFacts.keys_set.
Qed.

(** *** The loops *)

Lemma forEach_onEntry {I : Type} (body : I -> state -> state) l st :
  forEach (onEntry body) (map Some l) st = Ok (run body l st).
Proof.
  revert st. induction l as [|x l IH]; intro st; simpl; [reflexivity|].
  apply IH.
Qed.

Lemma forEach_app {A S : Type} (f : A -> S -> result S) a b st :
  forEach f (a ++ b) st = bind (forEach f a st) (forEach f b).
Proof.
  revert st. induction a as [|x a IH]; intro st; simpl; [reflexivity|].
  destruct (f x st); simpl; auto.
Qed.

Lemma mergeMovies_objects ws rs :
  mergeMovies (map Some ws) (map Some rs)
  = Ok (run ratingItem rs (run watchedItem ws initial)).
Proof.
  unfold mergeMovies. rewrite forEach_onEntry. simpl. apply forEach_onEntry.
Qed.

Lemma keys_run {I : Type} (body : I -> state -> state) (key : I -> option value) :
  (forall item st,
      JsMap.keys (mergedMovies (body item st))
      = match key item with
        | Some k => addKey (JsMap.keys (mergedMovies st)) k
        | None => JsMap.keys (mergedMovies st)
        end) ->
  forall l st,
    JsMap.keys (mergedMovies (run body l st))
    = fold_left addKey (joinKeys key l) (JsMap.keys (mergedMovies st)).
Proof.
  intros Hstep l. unfold run.
  induction l as [|x l IH]; intro st; simpl; [reflexivity|].
  rewrite IH, Hstep. now destruct (key x).
Qed.

Lemma get_run {I : Type} (body : I -> state -> state)
  (on : value -> I -> option MovieInfo.t -> option MovieInfo.t) :
  (forall k item st,
      JsMap.get k (mergedMovies (body item st))
      = on k item (JsMap.get k (mergedMovies st))) ->
  forall k l st,
    JsMap.get k (mergedMovies (run body l st))
    = fold_left (fun o item => on k item o) l (JsMap.get k (mergedMovies st)).
Proof.
  intros Hstep k l. unfold run.
  induction l as [|x l IH]; intro st; simpl; [reflexivity|].
  now rewrite IH, Hstep.
Qed.

(** The keys of the map after the two loops. *)
Lemma keys_merged ws rs :
  JsMap.keys (mergedMovies (run ratingItem rs (run watchedItem ws initial)))
  = firstAppearance (joinKeys watchedKey ws ++ joinKeys ratingKey rs).
Proof.
  rewrite (keys_run ratingItem ratingKey keys_ratingItem).
  rewrite (keys_run watchedItem watchedKey keys_watchedItem).
  simpl. now rewrite <- fold_left_app, <- firstAppearance_fold.
Qed.

(** The record of a key after the two loops. *)
Lemma get_merged k ws rs :
  JsMap.get k (mergedMovies (run ratingItem rs (run watchedItem ws initial)))
  = fold_left (fun o item => ratingOn k item o) rs
      (fold_left (fun o item => watchedOn k item o) ws None).
Proof.
  rewrite (get_run ratingItem (@ratingOn host) get_ratingItem).
  now rewrite (get_run watchedItem (@watchedOn host) get_watchedItem).
Qed.

End Steps.

(** ** The record of one key across the loops *)

Section Records.
Context {host : DateHost}.

Lemma traktId_mergeDate ts d e :
  MovieInfo.traktId (mergeDate ts d e) = MovieInfo.traktId e.
Proof.
  unfold mergeDate.
  destruct (present ts && _); [reflexivity|].
  now destruct ((MovieInfo.WatchedDate e =? "")%string && _).
Qed.

Lemma keyed_watchedOn k item o : keyed k o -> keyed k (watchedOn k item o).
Proof.
  unfold keyed, watchedOn. intros Ho e.
  destruct (movie_ids_trakt (Watched.movie item)) as [[mv i]|]; [|auto].
  destruct (value_eqb (Ids.trakt i) k) eqn:E; [|auto].
  apply value_eqb_eq in E. now intros [= <-].
Qed.

Lemma keyed_ratingOn k item o : keyed k o -> keyed k (ratingOn k item o).
Proof.
  unfold keyed, ratingOn. intros Ho e.
  destruct (value_eqb (Rating.type item) (VString "movie")); [|auto].
  destruct (movie_ids_trakt (Rating.movie item)) as [[mv i]|]; [|auto].
  destruct (value_eqb (Ids.trakt i) k) eqn:E; [|auto].
  apply value_eqb_eq in E. destruct o as [e0|]; intros [= <-].
  - rewrite traktId_mergeDate. simpl. now apply Ho.
  - assumption.
Qed.

Lemma keyed_fold {I : Type} (on : value -> I -> option MovieInfo.t -> option MovieInfo.t) k :
  (forall item o, keyed k o -> keyed k (on k item o)) ->
  forall l o, keyed k o -> keyed k (fold_left (fun o item => on k item o) l o).
Proof.
  intros Hon l. induction l as [|x l IH]; intros o Ho; simpl; auto.
Qed.

Lemma keyed_merged k ws rs :
  keyed k (JsMap.get k
             (mergedMovies (run ratingItem rs (run watchedItem ws initial)))).
Proof.
  rewrite get_merged.
  apply (keyed_fold (@ratingOn host)); [apply keyed_ratingOn|].
  apply (keyed_fold (@watchedOn host)); [apply keyed_watchedOn|].
  intros e [=].
Qed.

Lemma NoDup_keys_merged ws rs :
  NoDup (JsMap.keys (mergedMovies (run ratingItem rs (run watchedItem ws initial)))).
Proof. rewrite keys_merged. apply NoDup_firstAppearance. Qed.

(** The ids the output records stand for are the keys of the map. *)
Lemma unifiedIds_merged ws rs :
  unifiedIds (run ratingItem rs (run watchedItem ws initial))
  = firstAppearance (joinKeys watchedKey ws ++ joinKeys ratingKey rs).
Proof.
  rewrite <- keys_merged. unfold unifiedIds, JsMap.values, JsMap.keys.
  rewrite map_map. apply map_ext_in. intros [k e] Hin. simpl.
  apply (keyed_merged k ws rs).
  apply JsMapFacts.In_get; [apply NoDup_keys_merged | assumption].
Qed.

(** *** Watched entries: the last one of a key stands *)

Lemma watchedOn_other k item o :
  isKey k (watchedKey item) = false -> watchedOn k item o = o.
Proof.
  unfold watchedOn, watchedKey.
  destruct (movie_ids_trakt (Watched.movie item)) as [[mv i]|]; [|reflexivity].
  simpl. now intros ->.
Qed.

Lemma watchedOn_same k item o :
  isKey k (watchedKey item) = true -> watchedOn k item o = watchedRecord item.
Proof.
  unfold watchedOn, watchedKey, watchedRecord.
  destruct (movie_ids_trakt (Watched.movie item)) as [[mv i]|]; [|discriminate].
  simpl. now intros ->.
Qed.

Lemma watchedRecord_Some item k :
  isKey k (watchedKey item) = true -> exists e, watchedRecord item = Some e.
Proof.
  unfold watchedKey, watchedRecord.
  destruct (movie_ids_trakt (Watched.movie item)) as [[mv i]|]; [eauto|discriminate].
Qed.

Lemma lastOf_cons {A : Type} (x : A) l :
  lastOf (x :: l) = match lastOf l with Some y => Some y | None => Some x end.
Proof.
  revert x. induction l as [|y l IH]; intro x; [reflexivity|].
  change (lastOf (x :: y :: l)) with (lastOf (y :: l)).
  rewrite (IH y). now destruct (lastOf l).
Qed.

Lemma fold_watchedOn k ws o :
  fold_left (fun o item => watchedOn k item o) ws o
  = match lastOf (eventsOf watchedKey k ws) with
    | Some w => watchedRecord w
    | None => o
    end.
Proof.
  revert o. induction ws as [|x ws IH]; intro o; [reflexivity|].
  simpl fold_left. rewrite IH. unfold eventsOf. simpl filter.
  fold (eventsOf watchedKey k ws).
  destruct (isKey k (watchedKey x)) eqn:E.
  - rewrite lastOf_cons. destruct (lastOf (eventsOf watchedKey k ws)); [reflexivity|].
    now apply watchedOn_same.
  - destruct (lastOf (eventsOf watchedKey k ws)); [reflexivity|].
    now apply watchedOn_other.
Qed.

(** *** Rating entries: only those of the key count *)

Lemma ratingOn_other k item o :
  isKey k (ratingKey item) = false -> ratingOn k item o = o.
Proof.
  unfold ratingOn, ratingKey.
  destruct (value_eqb (Rating.type item) (VString "movie")); [|reflexivity].
  destruct (movie_ids_trakt (Rating.movie item)) as [[mv i]|]; [|reflexivity].
  simpl. now intros ->.
Qed.

Lemma ratingOn_same k item o :
  isKey k (ratingKey item) = true ->
  exists mv i,
    movie_ids_trakt (Rating.movie item) = Some (mv, i) /\ Ids.trakt i = k /\
    ratingOn k item o
    = Some (match o with
            | Some existing =>
                mergeDate (Rating.rated_at item) (dateOf (Rating.rated_at item))
                  (MovieInfo.with_Rating10
                     (js_or (Rating.rating item) (VString "")) existing)
            | None =>
                ratedInfo mv i (js_or (Rating.rating item) (VString ""))
                  (dateOf (Rating.rated_at item))
            end).
Proof.
  unfold ratingOn, ratingKey.
  destruct (value_eqb (Rating.type item) (VString "movie")); [|discriminate].
  destruct (movie_ids_trakt (Rating.movie item)) as [[mv i]|]; [|discriminate].
  simpl. intro E. rewrite E. apply value_eqb_eq in E.
  exists mv, i. repeat split; [assumption|]. now destruct o.
Qed.

Lemma fold_ratingOn_events k rs o :
  fold_left (fun o item => ratingOn k item o) rs o
  = fold_left (fun o item => ratingOn k item o) (eventsOf ratingKey k rs) o.
Proof.
  revert o. induction rs as [|x rs IH]; intro o; [reflexivity|].
  unfold eventsOf. simpl. fold (eventsOf ratingKey k rs).
  destruct (isKey k (ratingKey x)) eqn:E; simpl.
  - apply IH.
  - rewrite ratingOn_other by assumption. apply IH.
Qed.

Lemma fold_ratingOn_None k rs :
  eventsOf ratingKey k rs = [] ->
  forall o, fold_left (fun o item => ratingOn k item o) rs o = o.
Proof. intros H o. rewrite fold_ratingOn_events, H. reflexivity. Qed.

Lemma isKey_Some k (o : option value) : isKey k o = true <-> o = Some k.
Proof.
  destruct o as [k'|]; simpl; [|split; discriminate].
  rewrite value_eqb_eq. split; congruence.
Qed.

Lemma eventsOf_nil {I : Type} (key : I -> option value) k l :
  eventsOf key k l = [] <-> ~ In k (joinKeys key l).
Proof.
  rewrite In_joinKeys. unfold eventsOf. split.
  - intros H (x & Hx & E).
    assert (Hin : In x (filter (fun x => isKey k (key x)) l)).
    { apply filter_In. split; [assumption|]. now apply isKey_Some. }
    now rewrite H in Hin.
  - intro H. destruct (filter _ l) as [|y ys] eqn:F; [reflexivity|]. exfalso.
    assert (Hy : In y (filter (fun x => isKey k (key x)) l)) by (rewrite F; now left).
    apply filter_In in Hy as [Hy E]. apply isKey_Some in E. eauto.
Qed.

Lemma lastOf_In {A : Type} (l : list A) x : lastOf l = Some x -> In x l.
Proof.
  induction l as [|y l IH]; [discriminate|].
  rewrite lastOf_cons. destruct (lastOf l) as [z|].
  - intros [= ->]. right. now apply IH.
  - intros [= ->]. now left.
Qed.

Lemma lastOf_eventsOf {I : Type} (key : I -> option value) k l x :
  lastOf (eventsOf key k l) = Some x -> key x = Some k.
Proof.
  intro H. apply lastOf_In in H. apply filter_In in H as [_ H].
  now apply isKey_Some.
Qed.

(** *** Dates *)

Lemma dateOf_timeValue ts :
  dateOf ts = match timeValue ts with Some t => calendarDate t | None => "" end.
Proof.
  unfold dateOf, formatDate, timeValue. destruct ts as [s|]; [|reflexivity].
  destruct (present (Some s)); simpl; [|reflexivity].
  now destruct (Date_parse s).
Qed.

Lemma calendarDate_nonempty t : (calendarDate t =? "")%string = false.
Proof.
  unfold calendarDate. now destruct (String_of (getFullYear t)).
Qed.

Lemma dateOf_empty ts : (dateOf ts =? "")%string = true <-> timeValue ts = None.
Proof.
  rewrite dateOf_timeValue. destruct (timeValue ts) as [t|].
  - rewrite calendarDate_nonempty. split; discriminate.
  - split; reflexivity.
Qed.

Lemma timeValue_Some ts t :
  timeValue ts = Some t ->
  present ts = true /\ exists s, ts = Some s /\ Date_parse s = Some t.
Proof.
  unfold timeValue. destruct ts as [s|]; [|discriminate].
  destruct (present (Some s)); [|discriminate]. eauto.
Qed.

Lemma Date_gt_timeValue a b :
  present a = true -> present b = true ->
  Date_gt a b = match timeValue a, timeValue b with
                | Some x, Some y => y <? x
                | _, _ => false
                end.
Proof.
  unfold Date_gt, timeValue. destruct a as [x|], b as [y|]; try discriminate.
  now intros -> ->.
Qed.

Lemma timeValue_absent ts : present ts = false -> timeValue ts = None.
Proof.
  unfold timeValue. destruct ts as [s|]; [|reflexivity]. now intros ->.
Qed.

(** The date decision on a record whose date is that of its retained
    timestamp, as a watched entry leaves it. *)
Lemma mergeDate_later t2 e :
  MovieInfo.WatchedDate e = dateOf (MovieInfo._lastWatchedTimestamp e) ->
  MovieInfo.WatchedDate (mergeDate t2 (dateOf t2) e)
  = laterDate (MovieInfo._lastWatchedTimestamp e) t2.
Proof.
  intro Hdate.
  set (t1 := MovieInfo._lastWatchedTimestamp e) in *.
  assert (H : MovieInfo.WatchedDate (mergeDate t2 (dateOf t2) e)
              = if present t2 && (negb (present t1) || Date_gt t2 t1)
                then dateOf t2
                else if (dateOf t1 =? "")%string && negb (dateOf t2 =? "")%string
                     then dateOf t2 else dateOf t1).
  { unfold mergeDate. fold t1. rewrite Hdate.
    destruct (present t2 && _); [reflexivity|].
    now destruct ((dateOf t1 =? "")%string && _). }
  rewrite H. clear H. unfold laterDate.
  destruct (present t2) eqn:P2; destruct (present t1) eqn:P1; simpl.
  - rewrite Date_gt_timeValue by assumption. rewrite !dateOf_timeValue.
    destruct (timeValue t1) as [v1|], (timeValue t2) as [v2|];
      rewrite ?calendarDate_nonempty; simpl; try reflexivity.
  - rewrite !dateOf_timeValue, (timeValue_absent t1 P1).
    now destruct (timeValue t2).
  - rewrite !dateOf_timeValue, (timeValue_absent t2 P2).
    destruct (timeValue t1) as [v1|]; rewrite ?calendarDate_nonempty; reflexivity.
  - rewrite !dateOf_timeValue, (timeValue_absent t1 P1), (timeValue_absent t2 P2).
    reflexivity.
Qed.

Lemma mergeDate_cases ts d e :
  mergeDate ts d e = e \/ mergeDate ts d e = MovieInfo.with_WatchedDate d e.
Proof.
  unfold mergeDate.
  destruct (present ts && _); [now right|].
  destruct ((MovieInfo.WatchedDate e =? "")%string && _); [now right | now left].
Qed.

Lemma unchangedByMerge_refl e : unchangedByMerge e e.
Proof. repeat split. Qed.

Lemma unchangedByMerge_trans e1 e2 e3 :
  unchangedByMerge e1 e2 -> unchangedByMerge e2 e3 -> unchangedByMerge e1 e3.
Proof. unfold unchangedByMerge. intuition congruence. Qed.

Lemma unchangedByMerge_merge ts d rating e :
  unchangedByMerge e (mergeDate ts d (MovieInfo.with_Rating10 rating e)).
Proof.
  destruct (mergeDate_cases ts d (MovieInfo.with_Rating10 rating e)) as [-> | ->];
    repeat split.
Qed.

Lemma Rating10_mergeDate ts d e :
  MovieInfo.Rating10 (mergeDate ts d e) = MovieInfo.Rating10 e.
Proof. now destruct (mergeDate_cases ts d e) as [-> | ->]. Qed.

(** A rating entry keeps a record that is there, up to its rating and
    date. *)
Lemma ratingOn_Some k item e :
  exists e', ratingOn k item (Some e) = Some e' /\ unchangedByMerge e e'.
Proof.
  destruct (isKey k (ratingKey item)) eqn:E.
  - destruct (ratingOn_same k item (Some e) E) as (mv & i & _ & _ & ->).
    eexists. split; [reflexivity | apply unchangedByMerge_merge].
  - rewrite ratingOn_other by assumption. exists e.
    split; [reflexivity | apply unchangedByMerge_refl].
Qed.

Lemma fold_ratingOn_Some k rs e :
  exists e',
    fold_left (fun o item => ratingOn k item o) rs (Some e) = Some e' /\
    unchangedByMerge e e'.
Proof.
  revert e. induction rs as [|x rs IH]; intro e; simpl.
  - exists e. split; [reflexivity | apply unchangedByMerge_refl].
  - destruct (ratingOn_Some k x e) as (e1 & -> & H1).
    destruct (IH e1) as (e2 & -> & H2).
    exists e2. split; [reflexivity | eapply unchangedByMerge_trans; eauto].
Qed.

Lemma rewatchOf_ratingOn k item o : rewatchOf (ratingOn k item o) = rewatchOf o.
Proof.
  destruct o as [e|].
  - destruct (ratingOn_Some k item e) as (e' & -> & H). apply H.
  - destruct (isKey k (ratingKey item)) eqn:E.
    + now destruct (ratingOn_same k item None E) as (mv & i & _ & _ & ->).
    + now rewrite ratingOn_other.
Qed.

Lemma rewatchOf_fold_ratingOn k rs o :
  rewatchOf (fold_left (fun o item => ratingOn k item o) rs o) = rewatchOf o.
Proof.
  revert o. induction rs as [|x rs IH]; intro o; simpl; [reflexivity|].
  now rewrite IH, rewatchOf_ratingOn.
Qed.

Lemma plays_gt_1_true plays :
  plays_gt_1 plays = true <-> exists n, plays = Some n /\ 1 < n.
Proof.
  unfold plays_gt_1. destruct plays as [n|].
  - destruct (n =? 0) eqn:E0.
    + apply Z.eqb_eq in E0. subst n. simpl. split; [discriminate|].
      intros (n & [= <-] & H). lia.
    + rewrite Z.gtb_ltb, Z.ltb_lt. split; [eauto|].
      now intros (m & [= <-] & H).
  - simpl. split; [discriminate | intros (n & [=] & _)].
Qed.

Lemma lastOf_Some_app {A : Type} (l : list A) x :
  lastOf l = Some x -> exists l', l = l' ++ [x].
Proof.
  induction l as [|y l IH]; [discriminate|].
  rewrite lastOf_cons. destruct (lastOf l) as [z|] eqn:E.
  - intros [= ->]. destruct (IH eq_refl) as (l' & ->). now exists (y :: l').
  - intros [= ->]. destruct l as [|z l]; [now exists []|].
    rewrite lastOf_cons in E. now destruct (lastOf l).
Qed.

Lemma lastOf_app {A : Type} (l : list A) x : lastOf (l ++ [x]) = Some x.
Proof.
  induction l as [|y l IH]; [reflexivity|].
  simpl app. rewrite lastOf_cons, IH. reflexivity.
Qed.

End Records.

(** ** Skipped entries *)

Section Skips.
Context {host : DateHost}.

Lemma result_map_map {A B C : Type} (f : A -> B) (g : B -> C) (r : result A) :
  result_map g (result_map f r) = result_map (fun a => g (f a)) r.
Proof. now destruct r. Qed.

Lemma records_data st st' : data st = data st' -> records st = records st'.
Proof. unfold data, records. now intros [= -> _ _]. Qed.

Lemma watchedItem_skip item st :
  watchedKey item = None -> watchedItem item st = warn [SkippedWatched item] st.
Proof.
  unfold watchedKey, watchedItem.
  now destruct (movie_ids_trakt (Watched.movie item)) as [[mv i]|].
Qed.

Lemma ratingItem_skip item st :
  ratingKey item = None -> ratingItem item st = warn [SkippedRating item] st.
Proof.
  unfold ratingKey, ratingItem.
  destruct (value_eqb (Rating.type item) (VString "movie")); [|reflexivity].
  now destruct (movie_ids_trakt (Rating.movie item)) as [[mv i]|].
Qed.

(** The console plays no part in what a callback does to the rest of the
    state. *)
Lemma data_watchedItem item st st' :
  data st = data st' -> data (watchedItem item st) = data (watchedItem item st').
Proof.
  unfold data, watchedItem. intros [= Hm Hc Ha].
  destruct (movie_ids_trakt (Watched.movie item)) as [[mv i]|]; simpl.
  - destruct (formatDate (Watched.last_watched_at item)). simpl. congruence.
  - congruence.
Qed.

Lemma data_ratingItem item st st' :
  data st = data st' -> data (ratingItem item st) = data (ratingItem item st').
Proof.
  unfold data, ratingItem. intros [= Hm Hc Ha].
  destruct (value_eqb (Rating.type item) (VString "movie")); simpl; [|congruence].
  destruct (movie_ids_trakt (Rating.movie item)) as [[mv i]|]; simpl; [|congruence].
  destruct (formatDate (Rating.rated_at item)). rewrite Hm.
  destruct (JsMap.get (Ids.trakt i) (mergedMovies st')); simpl; congruence.
Qed.

Lemma data_forEach {I : Type} (body : I -> state -> state) :
  (forall item st st', data st = data st' ->
                       data (body item st) = data (body item st')) ->
  forall l st st',
    data st = data st' ->
    result_map data (forEach (onEntry body) l st)
    = result_map data (forEach (onEntry body) l st').
Proof.
  intros Hbody l. induction l as [|[x|] l IH]; intros st st' Hd; simpl.
  - now rewrite Hd.
  - apply IH. now apply Hbody.
  - reflexivity.
Qed.

(** Each callback appends to the console what its entry alone decides. *)
Lemma console_watchedItem item st :
  console (watchedItem item st) = console st ++ watchedWarnings (Some item).
Proof.
  unfold watchedItem, watchedWarnings, watchedKey.
  destruct (movie_ids_trakt (Watched.movie item)) as [[mv i]|]; [|reflexivity].
  now destruct (formatDate (Watched.last_watched_at item)).
Qed.

Lemma console_ratingItem item st :
  console (ratingItem item st) = console st ++ ratingWarnings (Some item).
Proof.
  unfold ratingItem, ratingWarnings, ratingKey.
  destruct (value_eqb (Rating.type item) (VString "movie")); [|reflexivity].
  destruct (movie_ids_trakt (Rating.movie item)) as [[mv i]|]; [|reflexivity].
  destruct (formatDate (Rating.rated_at item)). simpl.
  now destruct (JsMap.get (Ids.trakt i) (mergedMovies st)).
Qed.

Lemma console_forEach {I : Type} (body : I -> state -> state)
  (warnings : option I -> list warning) :
  (forall item st, console (body item st) = console st ++ warnings (Some item)) ->
  forall l st st',
    forEach (onEntry body) l st = Ok st' ->
    console st' = console st ++ flat_map warnings l.
Proof.
  intros Hbody l. induction l as [|[x|] l IH]; intros st st'; simpl.
  - intros [= <-]. now rewrite app_nil_r.
  - intro H. rewrite (IH _ _ H), Hbody. now rewrite <- app_assoc.
  - discriminate.
Qed.

Lemma console_mergeMovies ws rs st :
  mergeMovies ws rs = Ok st ->
  console st = flat_map watchedWarnings ws ++ flat_map ratingWarnings rs.
Proof.
  unfold mergeMovies.
  destruct (forEach (onEntry watchedItem) ws initial) as [st1|] eqn:H1;
    [|discriminate].
  simpl. intro H2.
  rewrite (console_forEach _ _ console_ratingItem _ _ _ H2).
  now rewrite (console_forEach _ _ console_watchedItem _ _ _ H1).
Qed.

(** A watched entry that fails the guard: the run comes to what it comes
    to without the entry, console apart. *)
Lemma skip_watched_entry bad ws1 ws2 rs :
  watchedKey bad = None ->
  result_map data (mergeMovies (ws1 ++ Some bad :: ws2) rs)
  = result_map data (mergeMovies (ws1 ++ ws2) rs).
Proof.
  intro Hbad. unfold mergeMovies. rewrite !forEach_app.
  destruct (forEach (onEntry watchedItem) ws1 initial) as [st1|]; [|reflexivity].
  simpl. rewrite watchedItem_skip by assumption.
  pose proof (data_forEach watchedItem data_watchedItem ws2
                (warn [SkippedWatched bad] st1) st1 eq_refl) as H.
  destruct (forEach (onEntry watchedItem) ws2 (warn [SkippedWatched bad] st1))
    as [a|ea],
    (forEach (onEntry watchedItem) ws2 st1) as [b|eb];
    cbn [result_map bind] in H; try discriminate; cbn [bind].
  - apply (data_forEach ratingItem data_ratingItem). congruence.
  - exact H.
Qed.

Lemma skip_rating_entry bad ws rs1 rs2 :
  ratingKey bad = None ->
  result_map data (mergeMovies ws (rs1 ++ Some bad :: rs2))
  = result_map data (mergeMovies ws (rs1 ++ rs2)).
Proof.
  intro Hbad. unfold mergeMovies.
  destruct (forEach (onEntry watchedItem) ws initial) as [st0|]; [|reflexivity].
  simpl. rewrite !forEach_app.
  destruct (forEach (onEntry ratingItem) rs1 st0) as [st1|]; [|reflexivity].
  simpl. rewrite ratingItem_skip by assumption.
  now apply (data_forEach ratingItem data_ratingItem).
Qed.

(** What the run with the skipped entry leaves, next to the run without
    it: the same records, and the same console but for the warning of
    the skipped entry. *)
Lemma skipped_run {ws rs ws' rs'} (w : warning) c1 c2 st :
  result_map data (mergeMovies ws rs) = result_map data (mergeMovies ws' rs') ->
  flat_map watchedWarnings ws ++ flat_map ratingWarnings rs = c1 ++ w :: c2 ->
  flat_map watchedWarnings ws' ++ flat_map ratingWarnings rs' = c1 ++ c2 ->
  mergeMovies ws rs = Ok st ->
  exists st',
    mergeMovies ws' rs' = Ok st' /\
    records st = records st' /\
    console st = c1 ++ w :: c2 /\
    console st' = c1 ++ c2.
Proof.
  intros Hdata Hc Hc' Hrun. rewrite Hrun in Hdata.
  destruct (mergeMovies ws' rs') as [st'|] eqn:Hrun'; [|discriminate].
  exists st'. repeat split.
  - apply records_data. cbn [result_map bind] in Hdata. congruence.
  - now rewrite (console_mergeMovies _ _ _ Hrun).
  - now rewrite (console_mergeMovies _ _ _ Hrun').
Qed.

Lemma missingIds_watchedKey item :
  missingIds (Watched.movie item) = true -> watchedKey item = None.
Proof.
  unfold missingIds, watchedKey, movie_ids_trakt.
  destruct (Watched.movie item) as [mv|]; [|reflexivity].
  now destruct (Movie.ids mv).
Qed.

Lemma not_movie_ratingKey item :
  Rating.type item <> VString "movie" \/ missingIds (Rating.movie item) = true ->
  ratingKey item = None.
Proof.
  unfold missingIds, ratingKey, movie_ids_trakt. intros [H | H].
  - apply value_eqb_neq in H. now rewrite H.
  - destruct (value_eqb (Rating.type item) (VString "movie")); [|reflexivity].
    destruct (Rating.movie item) as [mv|]; [|reflexivity].
    now destruct (Movie.ids mv).
Qed.

Lemma falsyTrakt_key movie :
  falsyTrakt movie = true ->
  option_map (fun p : Movie.t * Ids.t => Ids.trakt (snd p)) (movie_ids_trakt movie)
  = None.
Proof.
  unfold falsyTrakt, movie_ids_trakt.
  destruct movie as [mv|]; [|reflexivity].
  destruct (Movie.ids mv) as [i|]; [|reflexivity].
  intro H. apply orb_true_iff in H as [H | H]; apply value_eqb_eq in H;
    now rewrite H.
Qed.

End Skips.

(** ** Properties of the merge *)

Section Claims.
Context {host : DateHost}.

(** C1. Join-key uniqueness and union coverage.  On inputs without a
    [null] entry the run succeeds and hands the CSV writer one record per
    value of the map; the Trakt ids of these values have no duplicate,
    every join key of a watched or rating entry that passes its guard
    occurs exactly once among them, and nothing else occurs. *)
Theorem join_keys_exactly_once (ws : list Watched.item) (rs : list Rating.item) :
  exists st,
    mergeMovies (map Some ws) (map Some rs) = Ok st /\
    processTraktData (Some (map Some ws)) (Some (map Some rs))
    = Written (map toRecord (JsMap.values (mergedMovies st))) (console st) /\
    List.length (records st) = List.length (unifiedIds st) /\
    NoDup (unifiedIds st) /\
    (forall k, (occurrences k (unifiedIds st) <= 1)%nat) /\
    (forall k,
        In k (joinKeys watchedKey ws) \/ In k (joinKeys ratingKey rs) ->
        occurrences k (unifiedIds st) = 1%nat) /\
    (forall k,
        In k (unifiedIds st) ->
        In k (joinKeys watchedKey ws) \/ In k (joinKeys ratingKey rs)).
Proof.
  exists (run ratingItem rs (run watchedItem ws initial)).
  pose proof (mergeMovies_objects ws rs) as Hrun.
  pose proof (unifiedIds_merged ws rs) as Hids.
  set (st := run ratingItem rs (run watchedItem ws initial)) in *.
  assert (Hnd : NoDup (unifiedIds st)).
  { rewrite Hids. apply NoDup_firstAppearance. }
  repeat split.
  - assumption.
  - unfold processTraktData. now rewrite Hrun.
  - unfold records, unifiedIds. now rewrite !length_map.
  - assumption.
  - intro k. destruct (mem k (unifiedIds st)) eqn:E.
    + apply mem_In in E. rewrite occurrences_NoDup by assumption. lia.
    + apply mem_not_In in E. rewrite occurrences_not_In by assumption. lia.
  - intros k Hk. apply occurrences_NoDup; [assumption|].
    rewrite Hids. apply In_firstAppearance. apply in_or_app. exact Hk.
  - intros k Hk. rewrite Hids in Hk.
    apply (proj1 (In_firstAppearance _ _)) in Hk. now apply in_app_or.
Qed.

(** C7. Output order.  The records reach the CSV writer in the order of
    the map's values, and that order is the order of first appearance of
    the join keys: the keys of the watched entries in input order, then
    the keys that only rating entries have, in input order; overwriting
    or merging a key moves nothing. *)
Theorem output_in_first_appearance_order (ws : list Watched.item)
  (rs : list Rating.item) :
  exists st,
    mergeMovies (map Some ws) (map Some rs) = Ok st /\
    processTraktData (Some (map Some ws)) (Some (map Some rs))
    = Written (map toRecord (JsMap.values (mergedMovies st))) (console st) /\
    unifiedIds st
    = firstAppearance (joinKeys watchedKey ws ++ joinKeys ratingKey rs) /\
    unifiedIds st
    = firstAppearance (joinKeys watchedKey ws)
      ++ filter (fun k => negb (mem k (joinKeys watchedKey ws)))
           (firstAppearance (joinKeys ratingKey rs)).
Proof.
  exists (run ratingItem rs (run watchedItem ws initial)).
  pose proof (mergeMovies_objects ws rs) as Hrun.
  repeat split.
  - assumption.
  - unfold processTraktData. now rewrite Hrun.
  - apply unifiedIds_merged.
  - rewrite unifiedIds_merged. apply firstAppearance_app.
Qed.

(** C5. Rewatch derivation.  The record of a key reads "Yes" exactly when
    the watched entry that created it, the last one of that key, has a
    play count above 1; a record that no watched entry created reads
    "No"; and a rating entry leaves the flag of every record that is
    there as it was. *)
Theorem rewatch_from_watched_entry (ws : list Watched.item)
  (rs : list Rating.item) :
  exists st,
    mergeMovies (map Some ws) (map Some rs) = Ok st /\
    (forall k info,
        In (k, info) (mergedMovies st) ->
        (Csv.Rewatch (toRecord info) = "Yes" <->
         exists w n,
           lastOf (eventsOf watchedKey k ws) = Some w /\
           Watched.plays w = Some n /\ 1 < n) /\
        (Csv.Rewatch (toRecord info) = "Yes" \/
         Csv.Rewatch (toRecord info) = "No") /\
        (eventsOf watchedKey k ws = [] -> Csv.Rewatch (toRecord info) = "No")) /\
    (forall item st0 k e,
        JsMap.get k (mergedMovies st0) = Some e ->
        exists e',
          JsMap.get k (mergedMovies (ratingItem item st0)) = Some e' /\
          MovieInfo.Rewatch e' = MovieInfo.Rewatch e).
Proof.
  exists (run ratingItem rs (run watchedItem ws initial)).
  split; [apply mergeMovies_objects|]. split.
  - intros k info Hin.
    apply JsMapFacts.In_get in Hin; [|apply NoDup_keys_merged].
    rewrite get_merged in Hin.
    assert (Hrw : MovieInfo.Rewatch info
                  = rewatchOf (fold_left (fun o item => watchedOn k item o) ws None)).
    { rewrite <- (rewatchOf_fold_ratingOn k rs), Hin. reflexivity. }
    rewrite fold_watchedOn in Hrw. simpl Csv.Rewatch.
    destruct (lastOf (eventsOf watchedKey k ws)) as [w|] eqn:Hlast.
    + pose proof (lastOf_eventsOf _ _ _ _ Hlast) as Hkey.
      unfold watchedRecord, watchedKey in *.
      destruct (movie_ids_trakt (Watched.movie w)) as [[mv i]|]; [|discriminate].
      simpl in Hrw. rewrite Hrw. repeat split.
      * destruct (plays_gt_1 (Watched.plays w)) eqn:P; [|discriminate].
        intros _. apply plays_gt_1_true in P as (n & Hn & Hlt). eauto.
      * intros (w' & n & [= <-] & Hn & Hlt).
        rewrite (proj2 (plays_gt_1_true _)); eauto.
      * destruct (plays_gt_1 (Watched.plays w)); auto.
      * intro Hnil. apply lastOf_In in Hlast. now rewrite Hnil in Hlast.
    + simpl in Hrw. rewrite Hrw. repeat split; auto.
      * discriminate.
      * intros (w & n & [=] & _).
  - intros item st0 k e Hget. rewrite get_ratingItem, Hget.
    destruct (ratingOn_Some k item e) as (e' & -> & H).
    exists e'. split; [reflexivity | apply H].
Qed.

(** C6. Frame of a merge.  A record that the map holds before the rating
    entries are processed is still there after any number of them, with
    its id, imdb and tmdb ids, title and year (and its rewatch flag and
    retained timestamp) as they were: a merge step writes the rating and
    the watched date only. *)
Theorem merge_keeps_identity (rs : list Rating.item) (st : state)
  (k : value) (e : MovieInfo.t) :
  JsMap.get k (mergedMovies st) = Some e ->
  exists st' e',
    forEach (onEntry ratingItem) (map Some rs) st = Ok st' /\
    JsMap.get k (mergedMovies st') = Some e' /\
    MovieInfo.traktId e' = MovieInfo.traktId e /\
    MovieInfo.imdbID e' = MovieInfo.imdbID e /\
    MovieInfo.tmdbID e' = MovieInfo.tmdbID e /\
    MovieInfo.Title e' = MovieInfo.Title e /\
    MovieInfo.Year e' = MovieInfo.Year e /\
    MovieInfo.Rewatch e' = MovieInfo.Rewatch e /\
    MovieInfo._lastWatchedTimestamp e' = MovieInfo._lastWatchedTimestamp e.
Proof.
  intro Hget. exists (run ratingItem rs st).
  destruct (fold_ratingOn_Some k rs e) as (e' & Hfold & Hsame).
  exists e'. split; [apply forEach_onEntry|]. split; [|exact Hsame].
  now rewrite (get_run ratingItem (@ratingOn host) get_ratingItem), Hget.
Qed.

(** C3, as the code has it.  When a key has exactly one watched entry
    and exactly one rating entry that pass their guards, the watched
    date of its record is the formatted date of the later of the two
    timestamps when both are valid, the formatted date of the valid one
    when only one is, and the empty string when neither is. *)
Theorem watched_date_is_the_later (ws : list Watched.item)
  (rs : list Rating.item) (k : value) (w : Watched.item) (r : Rating.item) :
  eventsOf watchedKey k ws = [w] ->
  eventsOf ratingKey k rs = [r] ->
  exists st info,
    mergeMovies (map Some ws) (map Some rs) = Ok st /\
    JsMap.get k (mergedMovies st) = Some info /\
    In (toRecord info) (records st) /\
    Csv.WatchedDate (toRecord info)
    = laterDate (Watched.last_watched_at w) (Rating.rated_at r).
Proof.
  intros Hw Hr. exists (run ratingItem rs (run watchedItem ws initial)).
  assert (Hkw : isKey k (watchedKey w) = true).
  { assert (H : In w (eventsOf watchedKey k ws)) by (rewrite Hw; now left).
    now apply filter_In in H. }
  assert (Hkr : isKey k (ratingKey r) = true).
  { assert (H : In r (eventsOf ratingKey k rs)) by (rewrite Hr; now left).
    now apply filter_In in H. }
  pose proof (get_merged k ws rs) as Hget.
  rewrite fold_ratingOn_events, Hr, fold_watchedOn, Hw in Hget.
  simpl in Hget. unfold watchedRecord in Hget. unfold watchedKey in Hkw.
  destruct (movie_ids_trakt (Watched.movie w)) as [[mv i]|]; [|discriminate].
  destruct (ratingOn_same k r
              (Some (watchedInfo mv i w
                       (fst (formatDate (Watched.last_watched_at w))))) Hkr)
    as (mv' & i' & _ & _ & Hon).
  rewrite Hon in Hget. eexists. split; [apply mergeMovies_objects|].
  split; [exact Hget|]. split.
  - unfold records. apply in_map. apply JsMapFacts.get_In in Hget.
    change (In (snd (k, mergeDate (Rating.rated_at r) (dateOf (Rating.rated_at r))
                          (MovieInfo.with_Rating10
                             (js_or (Rating.rating r) (VString ""))
                             (watchedInfo mv i w
                                (fst (formatDate (Watched.last_watched_at w)))))))
               (map snd (mergedMovies (run ratingItem rs (run watchedItem ws initial))))).
    now apply in_map.
  - simpl Csv.WatchedDate. now rewrite mergeDate_later.
Qed.

(** C4, as the code has it.  When a key has a rating entry that passes
    the guard, the rating of its record is the rating of the last such
    entry when that value is truthy, and the empty string when it is
    absent, null, 0 or empty; a watched entry of the key does not change
    that. *)
Theorem rating_is_last_rating_or_empty (ws : list Watched.item)
  (rs : list Rating.item) (k : value) (r : Rating.item) :
  lastOf (eventsOf ratingKey k rs) = Some r ->
  exists st info,
    mergeMovies (map Some ws) (map Some rs) = Ok st /\
    JsMap.get k (mergedMovies st) = Some info /\
    Csv.Rating10 (toRecord info) = js_or (Rating.rating r) (VString "") /\
    (truthy (Rating.rating r) = true ->
     Csv.Rating10 (toRecord info) = Rating.rating r) /\
    (truthy (Rating.rating r) = false ->
     Csv.Rating10 (toRecord info) = VString "").
Proof.
  intro Hlast. exists (run ratingItem rs (run watchedItem ws initial)).
  pose proof (lastOf_eventsOf _ _ _ _ Hlast) as Hkey.
  destruct (lastOf_Some_app _ _ Hlast) as (l & Hl).
  pose proof (get_merged k ws rs) as Hget.
  rewrite fold_ratingOn_events, Hl, fold_left_app in Hget. simpl in Hget.
  destruct (ratingOn_same k r
              (fold_left (fun o item => ratingOn k item o) l
                 (fold_left (fun o item => watchedOn k item o) ws None))
              (proj2 (isKey_Some _ _) Hkey))
    as (mv & i & _ & _ & Hon).
  rewrite Hon in Hget. eexists. split; [apply mergeMovies_objects|].
  split; [exact Hget|].
  assert (H10 : forall o : option MovieInfo.t,
             MovieInfo.Rating10
               (match o with
                | Some existing =>
                    mergeDate (Rating.rated_at r) (dateOf (Rating.rated_at r))
                      (MovieInfo.with_Rating10
                         (js_or (Rating.rating r) (VString "")) existing)
                | None =>
                    ratedInfo mv i (js_or (Rating.rating r) (VString ""))
                      (dateOf (Rating.rated_at r))
                end)
             = js_or (Rating.rating r) (VString "")).
  { intros [e|]; [now rewrite Rating10_mergeDate | reflexivity]. }
  simpl Csv.Rating10. rewrite H10. unfold js_or. repeat split.
  - now intros ->.
  - now intros ->.
Qed.

(** C10. A rating entry that passes the guard and whose rating is absent
    or 0 leaves the record of its key with the empty string for a
    rating, whether it merges into a record that is there (the merged
    counter moves) or creates the record (the added counter moves). *)
Theorem falsy_rating_is_empty_string (item : Rating.item) (st : state)
  (k : value) :
  ratingKey item = Some k ->
  Rating.rating item = VUndefined \/ Rating.rating item = VNumber 0 ->
  exists e,
    JsMap.get k (mergedMovies (ratingItem item st)) = Some e /\
    MovieInfo.Rating10 e = VString "" /\
    (JsMap.has k (mergedMovies st) = true ->
     ratingsMergedCount (ratingItem item st) = S (ratingsMergedCount st)) /\
    (JsMap.has k (mergedMovies st) = false ->
     ratingsAddedCount (ratingItem item st) = S (ratingsAddedCount st)).
Proof.
  intros Hkey Hrating.
  assert (Hor : js_or (Rating.rating item) (VString "") = VString "").
  { now destruct Hrating as [-> | ->]. }
  rewrite get_ratingItem.
  destruct (ratingOn_same k item (JsMap.get k (mergedMovies st))
              (proj2 (isKey_Some _ _) Hkey)) as (mv & i & Hmv & Hi & ->).
  eexists. split; [reflexivity|]. rewrite JsMapFacts.has_get.
  unfold ratingItem. unfold ratingKey in Hkey.
  destruct (value_eqb (Rating.type item) (VString "movie")); [|discriminate].
  rewrite Hmv, Hi.
  destruct (formatDate (Rating.rated_at item)) as [d wn].
  destruct (JsMap.get k (mergedMovies st)) as [e|]; simpl.
  - rewrite Rating10_mergeDate. simpl. repeat split; [assumption | discriminate].
  - repeat split; [assumption | discriminate].
Qed.

(** Both kinds of skipped entry, from the key of the entry. *)
Lemma skipsWatched_intro (bad : Watched.item) :
  watchedKey bad = None -> skipsWatched bad.
Proof.
  intro Hbad. unfold skipsWatched. repeat split.
  - intro st. simpl. now rewrite watchedItem_skip.
  - intros ws1 ws2 rs.
    pose proof (skip_watched_entry bad ws1 ws2 rs Hbad) as H.
    apply (f_equal (result_map (fun d : JsMap.t * nat * nat =>
                                  map toRecord (JsMap.values (fst (fst d)))))) in H.
    now rewrite !result_map_map in H.
  - intros ws1 ws2 rs st Hrun.
    destruct (skipped_run (SkippedWatched bad)
                (flat_map watchedWarnings ws1)
                (flat_map watchedWarnings ws2 ++ flat_map ratingWarnings rs) st
                (skip_watched_entry bad ws1 ws2 rs Hbad)) as (st' & H);
      [| | assumption | exists st'; eauto].
    + rewrite flat_map_app. simpl. rewrite Hbad. now rewrite <- !app_assoc.
    + rewrite flat_map_app. now rewrite <- !app_assoc.
  - intros ws1 ws2 rs. unfold processTraktData.
    pose proof (skip_watched_entry bad (map Some ws1) (map Some ws2)
                  (map Some rs) Hbad) as H.
    rewrite <- (map_app Some ws1 ws2) in H.
    change (map Some ws1 ++ Some bad :: map Some ws2)
      with (map Some ws1 ++ map Some (bad :: ws2)) in H.
    rewrite <- map_app in H. rewrite !mergeMovies_objects in *.
    cbn [result_map bind] in H. do 3 eexists. split; [reflexivity|].
    f_equal. symmetry. apply records_data. congruence.
Qed.

Lemma skipsRating_intro (bad : Rating.item) :
  ratingKey bad = None -> skipsRating bad.
Proof.
  intro Hbad. unfold skipsRating. repeat split.
  - intro st. simpl. now rewrite ratingItem_skip.
  - intros ws rs1 rs2.
    pose proof (skip_rating_entry bad ws rs1 rs2 Hbad) as H.
    apply (f_equal (result_map (fun d : JsMap.t * nat * nat =>
                                  map toRecord (JsMap.values (fst (fst d)))))) in H.
    now rewrite !result_map_map in H.
  - intros ws rs1 rs2 st Hrun.
    destruct (skipped_run (SkippedRating bad)
                (flat_map watchedWarnings ws ++ flat_map ratingWarnings rs1)
                (flat_map ratingWarnings rs2) st
                (skip_rating_entry bad ws rs1 rs2 Hbad)) as (st' & H);
      [| | assumption | exists st'; eauto].
    + rewrite flat_map_app. simpl. rewrite Hbad. now rewrite <- !app_assoc.
    + rewrite flat_map_app. now rewrite <- !app_assoc.
  - intros ws rs1 rs2. unfold processTraktData.
    pose proof (skip_rating_entry bad (map Some ws) (map Some rs1)
                  (map Some rs2) Hbad) as H.
    rewrite <- (map_app Some rs1 rs2) in H.
    change (map Some rs1 ++ Some bad :: map Some rs2)
      with (map Some rs1 ++ map Some (bad :: rs2)) in H.
    rewrite <- map_app in H. rewrite !mergeMovies_objects in *.
    cbn [result_map bind] in H. do 3 eexists. split; [reflexivity|].
    f_equal. symmetry. apply records_data. congruence.
Qed.

(** X16. Entries that are objects.  A watched entry that is an object
    without an identifier block, and a rating entry that is an object
    without one or whose type is not "movie", are skipped: the callback
    does not throw and warns with the entry, no record comes of it, and
    the run yields the records it yields without the entry. *)
Theorem malformed_entries_are_skipped (bw : Watched.item) (br : Rating.item) :
  missingIds (Watched.movie bw) = true ->
  Rating.type br <> VString "movie" \/ missingIds (Rating.movie br) = true ->
  skipsWatched bw /\ skipsRating br.
Proof.
  intros Hw Hr. split.
  - apply skipsWatched_intro. now apply missingIds_watchedKey.
  - apply skipsRating_intro. now apply not_movie_ratingKey.
Qed.

(** C9. A falsy join key.  A watched or rating entry whose identifier
    block is there but whose [trakt] is 0 or the empty string is skipped
    like an entry without a key: a warning, and no record. *)
Theorem falsy_trakt_is_skipped (bw : Watched.item) (br : Rating.item) :
  falsyTrakt (Watched.movie bw) = true ->
  falsyTrakt (Rating.movie br) = true ->
  skipsWatched bw /\ skipsRating br.
Proof.
  intros Hw Hr. split.
  - apply skipsWatched_intro. unfold watchedKey. now apply falsyTrakt_key.
  - apply skipsRating_intro. unfold ratingKey.
    rewrite (falsyTrakt_key _ Hr). now destruct (value_eqb _ _).
Qed.

End Claims.

(** ** The date decision against its specification *)

Section DateDecision.
Context {host : DateHost}.

(** The code follows the three rules of the specification, but for a
    [rated_at] that is present and is no date, met with a record without
    a retained timestamp: there it writes the empty date. *)
Lemma mergeDate_vs_spec (ts : option string) (e : MovieInfo.t) :
  mergeDate ts (dateOf ts) e = mergeDateSpec ts e \/
  (present ts = true /\ timeValue ts = None /\
   present (MovieInfo._lastWatchedTimestamp e) = false /\
   mergeDate ts (dateOf ts) e = MovieInfo.with_WatchedDate "" e).
Proof.
  unfold mergeDate, mergeDateSpec.
  destruct (present ts) eqn:P.
  - destruct (timeValue ts) as [t|] eqn:V; [now left|].
    destruct (present (MovieInfo._lastWatchedTimestamp e)) eqn:Pe.
    + left. rewrite Date_gt_timeValue, V by assumption. reflexivity.
    + right. repeat split. simpl.
      now rewrite (proj1 (String.eqb_eq _ _) (proj2 (dateOf_empty ts) V)).
  - left. rewrite (timeValue_absent ts P). reflexivity.
Qed.

End DateDecision.

(** ** The reference host at work *)

Example parse_epoch : Utc.parse "1970-01-01T00:00:00Z" = Some 0.
Proof. reflexivity. Qed.

Example parse_june : Utc.parse "2021-06-01T12:00:00.000Z" = Some 1622548800000.
Proof. reflexivity. Qed.

Example parse_leap_day :
  @formatDate Utc.host (Some "2024-02-29T23:59:59Z") = ("2024-02-29", [])
  /\ @formatDate Utc.host (Some "2023-02-29T23:59:59Z") = ("2023-03-01", [])
  /\ @formatDate Utc.host (Some "2023-02-32T23:59:59Z")
     = ("", [InvalidDate "2023-02-32T23:59:59Z"]).
Proof. repeat split. Qed.

Example parse_date_only_and_hour_24 :
  Utc.parse "2021-06-01" = Utc.parse "2021-06-01T00:00:00Z"
  /\ Utc.parse "2021-05-31T24:00:00Z" = Utc.parse "2021-06-01T00:00:00.000Z"
  /\ Utc.parse "2021-05-31T24:00:01Z" = None.
Proof. repeat split. Qed.

Example format_absent_or_garbage :
  @formatDate Utc.host None = ("", [])
  /\ @formatDate Utc.host (Some "") = ("", [])
  /\ @formatDate Utc.host (Some "garbage") = ("", [InvalidDate "garbage"]).
Proof. repeat split. Qed.

(** The example scenario of the specification. *)
Example example_scenario :
  @processTraktData Utc.host (Some [Some Sample.watched1]) (Some [Some Sample.rated1])
  = Written
      [{| Csv.imdbID := VString "tt1"; Csv.tmdbID := VString "";
          Csv.Title := VString "A"; Csv.Year := VNumber 2000;
          Csv.Rating10 := VNumber 8; Csv.WatchedDate := "2021-06-01";
          Csv.Rewatch := "Yes" |}]
      [].
Proof. reflexivity. Qed.

(** A [null] entry rejects the run; an unread file ends it early. *)
Example null_entry_throws :
  @processTraktData Utc.host (Some [Some Sample.watched1; None]) (Some [])
  = Rejected TypeError
  /\ @processTraktData Utc.host None (Some []) = Exited.
Proof. split; reflexivity. Qed.

(** C2. The date decision departs from its rules.  On the reference
    host, two rating entries of movie 2 and no watched entry: the first
    creates the record with the date 2021-06-01 and no retained
    timestamp; the [rated_at] of the second is no date, so that rules 1
    and 2 do not apply and rule 3 keeps the date; the code takes the
    first branch and writes the empty date. *)
Theorem invalid_rated_at_erases_the_date :
  @timeValue Utc.host (Rating.rated_at Sample.rated2_garbage) = None /\
  @run Rating.item (@ratingItem Utc.host) [Sample.rated2] initial
  = {| mergedMovies := [(VNumber 2, Seeded.rated)];
       ratingsMergedCount := 0; ratingsAddedCount := 1; console := [] |} /\
  MovieInfo.WatchedDate
    (@mergeDateSpec Utc.host (Rating.rated_at Sample.rated2_garbage)
       (MovieInfo.with_Rating10 (VNumber 7) Seeded.rated))
  = "2021-06-01" /\
  MovieInfo.WatchedDate
    (@mergeDate Utc.host (Rating.rated_at Sample.rated2_garbage)
       (@dateOf Utc.host (Rating.rated_at Sample.rated2_garbage))
       (MovieInfo.with_Rating10 (VNumber 7) Seeded.rated))
  = "" /\
  @processTraktData Utc.host (Some [])
    (Some [Some Sample.rated2; Some Sample.rated2_garbage])
  = Written
      [{| Csv.imdbID := VString ""; Csv.tmdbID := VString "";
          Csv.Title := VString ""; Csv.Year := VString "";
          Csv.Rating10 := VNumber 7; Csv.WatchedDate := "";
          Csv.Rewatch := "No" |}]
      [InvalidDate "garbage"].
Proof. repeat split. Qed.

(** ** The properties at sample entries, on the reference host *)

(** C4 fails as stated: a rating entry of movie 1 that passes the guard
    and has no [rating] leaves the record of the movie with the empty
    string for a rating. *)
Lemma unrated_entry_gives_empty_rating :
  ratingKey Sample.unrated1 = Some (VNumber 1) /\
  (exists st info,
      @mergeMovies Utc.host [Some Sample.watched1] [Some Sample.unrated1] = Ok st /\
      JsMap.get (VNumber 1) (mergedMovies st) = Some info /\
      MovieInfo.Rating10 info = VString "" /\
      MovieInfo.Rating10 info <> Rating.rating Sample.unrated1) /\
  @processTraktData Utc.host (Some [Some Sample.watched1])
    (Some [Some Sample.unrated1])
  = Written
      [{| Csv.imdbID := VString "tt1"; Csv.tmdbID := VString "";
          Csv.Title := VString "A"; Csv.Year := VNumber 2000;
          Csv.Rating10 := VString ""; Csv.WatchedDate := "2021-06-01";
          Csv.Rewatch := "Yes" |}]
      [].
Proof.
  split; [reflexivity|]. split; [|reflexivity].
  eexists. eexists. split; [vm_compute; reflexivity|].
  split; [vm_compute; reflexivity|].
  split; [reflexivity | discriminate].
Qed.

Lemma watched_date_is_the_later_witness :
  eventsOf watchedKey (VNumber 1) [Sample.watched1] = [Sample.watched1] /\
  eventsOf ratingKey (VNumber 1) [Sample.rated1] = [Sample.rated1] /\
  exists st info,
    @mergeMovies Utc.host (map Some [Sample.watched1]) (map Some [Sample.rated1])
    = Ok st /\
    JsMap.get (VNumber 1) (mergedMovies st) = Some info /\
    In (toRecord info) (records st) /\
    Csv.WatchedDate (toRecord info)
    = @laterDate Utc.host (Watched.last_watched_at Sample.watched1)
        (Rating.rated_at Sample.rated1).
Proof.
  split; [reflexivity|]. split; [reflexivity|].
  apply (@watched_date_is_the_later Utc.host [Sample.watched1] [Sample.rated1]
           (VNumber 1) Sample.watched1 Sample.rated1); reflexivity.
Defined.

Lemma rating_is_last_rating_or_empty_witness :
  lastOf (eventsOf ratingKey (VNumber 1) [Sample.unrated1; Sample.rated1])
  = Some Sample.rated1 /\
  exists st info,
    @mergeMovies Utc.host (map Some [Sample.watched1])
      (map Some [Sample.unrated1; Sample.rated1]) = Ok st /\
    JsMap.get (VNumber 1) (mergedMovies st) = Some info /\
    Csv.Rating10 (toRecord info) = js_or (Rating.rating Sample.rated1) (VString "") /\
    (truthy (Rating.rating Sample.rated1) = true ->
     Csv.Rating10 (toRecord info) = Rating.rating Sample.rated1) /\
    (truthy (Rating.rating Sample.rated1) = false ->
     Csv.Rating10 (toRecord info) = VString "").
Proof.
  split; [reflexivity|].
  apply (@rating_is_last_rating_or_empty Utc.host [Sample.watched1]
           [Sample.unrated1; Sample.rated1] (VNumber 1) Sample.rated1).
  reflexivity.
Defined.

Lemma merge_keeps_identity_witness :
  JsMap.get (VNumber 1) (mergedMovies Seeded.st) = Some Seeded.info /\
  exists st' e',
    forEach (onEntry (@ratingItem Utc.host)) (map Some [Sample.rated1]) Seeded.st
    = Ok st' /\
    JsMap.get (VNumber 1) (mergedMovies st') = Some e' /\
    MovieInfo.traktId e' = MovieInfo.traktId Seeded.info /\
    MovieInfo.imdbID e' = MovieInfo.imdbID Seeded.info /\
    MovieInfo.tmdbID e' = MovieInfo.tmdbID Seeded.info /\
    MovieInfo.Title e' = MovieInfo.Title Seeded.info /\
    MovieInfo.Year e' = MovieInfo.Year Seeded.info /\
    MovieInfo.Rewatch e' = MovieInfo.Rewatch Seeded.info /\
    MovieInfo._lastWatchedTimestamp e' = MovieInfo._lastWatchedTimestamp Seeded.info.
Proof.
  split; [reflexivity|].
  apply (@merge_keeps_identity Utc.host [Sample.rated1] Seeded.st (VNumber 1)
           Seeded.info).
  reflexivity.
Defined.

Lemma malformed_entries_are_skipped_witness :
  missingIds (Watched.movie Sample.watched_no_movie) = true /\
  (Rating.type Sample.rated_show <> VString "movie" \/
   missingIds (Rating.movie Sample.rated_show) = true) /\
  @skipsWatched Utc.host Sample.watched_no_movie /\
  @skipsRating Utc.host Sample.rated_show.
Proof.
  split; [reflexivity|]. split; [left; discriminate|].
  apply (@malformed_entries_are_skipped Utc.host Sample.watched_no_movie
           Sample.rated_show); [reflexivity | left; discriminate].
Defined.

Lemma falsy_trakt_is_skipped_witness :
  falsyTrakt (Watched.movie Sample.watched_trakt0) = true /\
  falsyTrakt (Rating.movie Sample.rated_trakt_empty) = true /\
  @skipsWatched Utc.host Sample.watched_trakt0 /\
  @skipsRating Utc.host Sample.rated_trakt_empty.
Proof.
  split; [reflexivity|]. split; [reflexivity|].
  apply (@falsy_trakt_is_skipped Utc.host Sample.watched_trakt0
           Sample.rated_trakt_empty); reflexivity.
Defined.

Lemma falsy_rating_is_empty_string_witness :
  ratingKey Sample.rated1_zero = Some (VNumber 1) /\
  (Rating.rating Sample.rated1_zero = VUndefined \/
   Rating.rating Sample.rated1_zero = VNumber 0) /\
  exists e,
    JsMap.get (VNumber 1) (mergedMovies (@ratingItem Utc.host Sample.rated1_zero Seeded.st))
    = Some e /\
    MovieInfo.Rating10 e = VString "" /\
    (JsMap.has (VNumber 1) (mergedMovies Seeded.st) = true ->
     ratingsMergedCount (@ratingItem Utc.host Sample.rated1_zero Seeded.st)
     = S (ratingsMergedCount Seeded.st)) /\
    (JsMap.has (VNumber 1) (mergedMovies Seeded.st) = false ->
     ratingsAddedCount (@ratingItem Utc.host Sample.rated1_zero Seeded.st)
     = S (ratingsAddedCount Seeded.st)).
Proof.
  split; [reflexivity|]. split; [right; reflexivity|].
  apply (@falsy_rating_is_empty_string Utc.host Sample.rated1_zero Seeded.st
           (VNumber 1)); [reflexivity | right; reflexivity].
Defined.

(** ** Further properties: formatDate *)

Section FormatDateFacts.
Context {host : DateHost}.

Lemma snd_formatDate ts :
  snd (formatDate ts)
  = match ts with
    | Some s => if present ts
                then match Date_parse s with
                     | Some _ => []
                     | None => [InvalidDate s]
                     end
                else []
    | None => []
    end.
Proof.
  unfold formatDate. destruct ts as [s|]; [|reflexivity].
  destruct (present (Some s)); simpl; [|reflexivity].
  now destruct (Date_parse s).
Qed.

Lemma snd_formatDate_nil ts : snd (formatDate ts) = [] <-> silent ts.
Proof.
  rewrite snd_formatDate. unfold silent, timeValue.
  destruct ts as [s|]; [|split; [discriminate | reflexivity]].
  destruct (present (Some s)); [|split; [discriminate | reflexivity]].
  destruct (Date_parse s); split; try discriminate; try reflexivity.
  intro H. now contradiction H.
Qed.

(** X1. [formatDate] returns the empty string exactly when the timestamp
    is absent, empty or no date, and it warns exactly when the timestamp
    is a non-empty string that is no date, with that string and once. *)
Theorem formatDate_empty_and_warning (ts : option string) :
  (fst (formatDate ts) = "" <-> timeValue ts = None) /\
  (snd (formatDate ts) = [] \/
   exists s, ts = Some s /\ snd (formatDate ts) = [InvalidDate s]) /\
  (snd (formatDate ts) <> [] <->
   exists s, ts = Some s /\ s <> "" /\ Date_parse s = None).
Proof.
  split; [|split].
  - fold (dateOf ts). rewrite <- dateOf_empty. apply iff_sym, String.eqb_eq.
  - rewrite snd_formatDate. destruct ts as [s|]; [|now left].
    destruct (present (Some s)); [|now left].
    destruct (Date_parse s); [now left | right; eauto].
  - rewrite snd_formatDate. destruct ts as [s|].
    + simpl. destruct (s =? "")%string eqn:E; simpl.
      * apply String.eqb_eq in E. split; [congruence|].
        intros (s' & [= <-] & H & _). contradiction.
      * apply String.eqb_neq in E.
        destruct (Date_parse s) eqn:P; split.
        -- congruence.
        -- intros (s' & [= <-] & _ & H). congruence.
        -- intros _. eauto.
        -- intros _. discriminate.
    + split; [congruence | intros (s & [=] & _)].
Qed.

Lemma two_digits_table :
  forallb (fun n =>
             (String.length (padStart0 (String_of n) 2) =? 2)%nat
             && (padStart0 (String_of n) 2
                 =? (if (n <? 10)%Z then String "0" (String_of n) else String_of n))%string)
    (map Z.of_nat (seq 0 100)) = true.
Proof. vm_compute. reflexivity. Qed.

Lemma two_digits (n : Z) :
  0 <= n < 100 ->
  String.length (padStart0 (String_of n) 2) = 2%nat /\
  (n < 10 -> padStart0 (String_of n) 2 = String "0" (String_of n)) /\
  (10 <= n -> padStart0 (String_of n) 2 = String_of n).
Proof.
  intro H. pose proof two_digits_table as T.
  rewrite forallb_forall in T. specialize (T n).
  assert (Hin : In n (map Z.of_nat (seq 0 100))).
  { apply in_map_iff. exists (Z.to_nat n). split; [lia|]. apply in_seq. lia. }
  apply T in Hin. apply andb_true_iff in Hin as [L E].
  apply Nat.eqb_eq in L. apply String.eqb_eq in E.
  split; [assumption|]. split; intro Hc; rewrite E.
  - now rewrite (proj2 (Z.ltb_lt n 10) Hc).
  - now rewrite (proj2 (Z.ltb_ge n 10) Hc).
Qed.

(** X2. On a date whose month and day of month the host reports in their
    ranges, the string of [formatDate] is the year, a dash, the month
    from 1 on two characters, a dash and the day on two characters: a
    month or day below 10 gets one leading zero. *)
Theorem formatDate_pads_month_and_day (s : string) (t : Z) :
  s <> "" ->
  Date_parse s = Some t ->
  0 <= getMonth t <= 11 ->
  1 <= getDate t <= 31 ->
  exists mm dd,
    formatDate (Some s)
    = ((String_of (getFullYear t) ++ "-" ++ mm ++ "-" ++ dd)%string, []) /\
    String.length mm = 2%nat /\ String.length dd = 2%nat /\
    mm = (if getMonth t + 1 <? 10
          then String "0" (String_of (getMonth t + 1))
          else String_of (getMonth t + 1)) /\
    dd = (if getDate t <? 10
          then String "0" (String_of (getDate t))
          else String_of (getDate t)).
Proof.
  intros Hs Hparse Hm Hd.
  exists (padStart0 (String_of (getMonth t + 1)) 2),
    (padStart0 (String_of (getDate t)) 2).
  destruct (two_digits (getMonth t + 1)) as (Lm & Sm & Bm); [lia|].
  destruct (two_digits (getDate t)) as (Ld & Sd & Bd); [lia|].
  repeat split; try assumption.
  - unfold formatDate. simpl. apply String.eqb_neq in Hs. rewrite Hs. simpl.
    now rewrite Hparse.
  - destruct (getMonth t + 1 <? 10) eqn:E.
    + apply Sm. now apply Z.ltb_lt.
    + apply Bm. apply Z.ltb_ge in E. lia.
  - destruct (getDate t <? 10) eqn:E.
    + apply Sd. now apply Z.ltb_lt.
    + apply Bd. apply Z.ltb_ge in E. lia.
Qed.

End FormatDateFacts.

(** ** Further properties: the record of a key *)

Section RecordFacts.
Context {host : DateHost}.

Lemma eventsOf_In_key {I : Type} (key : I -> option value) k l x :
  In x (eventsOf key k l) -> isKey k (key x) = true.
Proof. intro H. now apply filter_In in H. Qed.

(** X3. Duplicate watched entries.  After the first loop the map holds,
    for a key, the record made from the last watched entry of that key
    alone (nothing of an earlier entry of the key is left), and it holds
    a record for exactly the keys of the entries that pass the guard. *)
Theorem watched_duplicates_last_wins (ws : list Watched.item) (k : value) :
  exists st,
    forEach (onEntry watchedItem) (map Some ws) initial = Ok st /\
    JsMap.get k (mergedMovies st)
    = match lastOf (eventsOf watchedKey k ws) with
      | Some w => watchedRecord w
      | None => None
      end /\
    (JsMap.has k (mergedMovies st) = true <-> In k (joinKeys watchedKey ws)).
Proof.
  exists (run watchedItem ws initial). split; [apply forEach_onEntry|]. split.
  - rewrite (get_run watchedItem (@watchedOn host) get_watchedItem).
    apply fold_watchedOn.
  - rewrite JsMapFacts.has_mem, mem_In.
    rewrite (keys_run watchedItem watchedKey keys_watchedItem).
    simpl. rewrite <- firstAppearance_fold. apply In_firstAppearance.
Qed.

(** X4. Locality.  The record of a key after the two loops depends on
    the entries of that key only: two pairs of inputs whose watched
    entries of the key agree and whose rating entries of the key agree
    give the key the same record, whatever the other entries are. *)
Theorem record_depends_on_its_entries_only (ws ws' : list Watched.item)
  (rs rs' : list Rating.item) (k : value) :
  eventsOf watchedKey k ws = eventsOf watchedKey k ws' ->
  eventsOf ratingKey k rs = eventsOf ratingKey k rs' ->
  exists st st',
    mergeMovies (map Some ws) (map Some rs) = Ok st /\
    mergeMovies (map Some ws') (map Some rs') = Ok st' /\
    JsMap.get k (mergedMovies st) = JsMap.get k (mergedMovies st').
Proof.
  intros Hw Hr. do 2 eexists.
  split; [apply mergeMovies_objects|]. split; [apply mergeMovies_objects|].
  rewrite !get_merged, !fold_watchedOn, Hw.
  rewrite (fold_ratingOn_events k rs), (fold_ratingOn_events k rs'), Hr.
  reflexivity.
Qed.

(** X5. A watched movie without a rating.  When no rating entry has the
    key, its record is the one the last watched entry of the key made:
    the rating is the empty string and the date is the formatted
    [last_watched_at]. *)
Theorem watched_only_record (ws : list Watched.item) (rs : list Rating.item)
  (k : value) (w : Watched.item) :
  lastOf (eventsOf watchedKey k ws) = Some w ->
  eventsOf ratingKey k rs = [] ->
  exists st mv i,
    mergeMovies (map Some ws) (map Some rs) = Ok st /\
    movie_ids_trakt (Watched.movie w) = Some (mv, i) /\
    JsMap.get k (mergedMovies st)
    = Some (watchedInfo mv i w (fst (formatDate (Watched.last_watched_at w)))) /\
    In {| Csv.imdbID := js_or (Ids.imdb i) (VString "");
          Csv.tmdbID := js_or (Ids.tmdb i) (VString "");
          Csv.Title := js_or (Movie.title mv) (VString "");
          Csv.Year := js_or (Movie.year mv) (VString "");
          Csv.Rating10 := VString "";
          Csv.WatchedDate := fst (formatDate (Watched.last_watched_at w));
          Csv.Rewatch := if plays_gt_1 (Watched.plays w) then "Yes" else "No" |}
       (records st).
Proof.
  intros Hlast Hr. exists (run ratingItem rs (run watchedItem ws initial)).
  pose proof (lastOf_eventsOf _ _ _ _ Hlast) as Hkey.
  pose proof (get_merged k ws rs) as Hget.
  rewrite (fold_ratingOn_None k rs Hr), fold_watchedOn, Hlast in Hget.
  unfold watchedRecord in Hget. unfold watchedKey in Hkey.
  destruct (movie_ids_trakt (Watched.movie w)) as [[mv i]|]; [|discriminate].
  exists mv, i. split; [apply mergeMovies_objects|]. split; [reflexivity|].
  split; [exact Hget|].
  apply JsMapFacts.get_In in Hget. unfold records, JsMap.values.
  rewrite map_map. apply in_map_iff. eexists. split; [|exact Hget]. reflexivity.
Qed.

(** X6. A rated movie that was not watched.  When no watched entry has
    the key, the first rating entry of the key creates the record: its
    imdb and tmdb ids, title and year are those of that entry (defaulted
    to the empty string), whatever later rating entries of the key
    carry; it is no rewatch and retains no watch timestamp. *)
Theorem rated_only_record (ws : list Watched.item) (rs rest : list Rating.item)
  (k : value) (r : Rating.item) :
  eventsOf watchedKey k ws = [] ->
  eventsOf ratingKey k rs = r :: rest ->
  exists st info mv i,
    mergeMovies (map Some ws) (map Some rs) = Ok st /\
    JsMap.get k (mergedMovies st) = Some info /\
    movie_ids_trakt (Rating.movie r) = Some (mv, i) /\
    MovieInfo.traktId info = k /\
    MovieInfo.imdbID info = js_or (Ids.imdb i) (VString "") /\
    MovieInfo.tmdbID info = js_or (Ids.tmdb i) (VString "") /\
    MovieInfo.Title info = js_or (Movie.title mv) (VString "") /\
    MovieInfo.Year info = js_or (Movie.year mv) (VString "") /\
    MovieInfo.Rewatch info = false /\
    MovieInfo._lastWatchedTimestamp info = None.
Proof.
  intros Hw Hr. exists (run ratingItem rs (run watchedItem ws initial)).
  assert (Hkey : isKey k (ratingKey r) = true).
  { apply (eventsOf_In_key ratingKey k rs). rewrite Hr. now left. }
  pose proof (get_merged k ws rs) as Hget.
  rewrite fold_ratingOn_events, Hr, fold_watchedOn, Hw in Hget.
  simpl in Hget.
  destruct (ratingOn_same k r None Hkey) as (mv & i & Hmv & Hi & Hon).
  rewrite Hon in Hget.
  destruct (fold_ratingOn_Some k rest
              (ratedInfo mv i (js_or (Rating.rating r) (VString ""))
                 (dateOf (Rating.rated_at r))))
    as (info & Hfold & Hsame).
  rewrite Hfold in Hget. exists info, mv, i.
  split; [apply mergeMovies_objects|]. split; [exact Hget|].
  split; [exact Hmv|].
  destruct Hsame as (H1 & H2 & H3 & H4 & H5 & H6 & H7).
  simpl in *. subst k. repeat split; assumption.
Qed.

End RecordFacts.

(** ** Further properties: the date across several rating entries *)

Section DateFacts.
Context {host : DateHost}.

Lemma dateOf_absent ts : present ts = false -> dateOf ts = "".
Proof.
  intro P. now rewrite dateOf_timeValue, (timeValue_absent ts P).
Qed.

(** The date after a merge into a record that retains no timestamp. *)
Lemma mergeDate_no_retained ts e :
  present (MovieInfo._lastWatchedTimestamp e) = false ->
  MovieInfo.WatchedDate (mergeDate ts (dateOf ts) e)
  = if present ts then dateOf ts else MovieInfo.WatchedDate e.
Proof.
  intro Pe. unfold mergeDate. rewrite Pe. simpl.
  destruct (present ts) eqn:P; simpl; [reflexivity|].
  rewrite (dateOf_absent ts P). simpl. now rewrite andb_false_r.
Qed.

(** The date after a merge into a record that retains a valid timestamp
    and has a date. *)
Lemma mergeDate_retained ts e t1 :
  timeValue (MovieInfo._lastWatchedTimestamp e) = Some t1 ->
  MovieInfo.WatchedDate e <> "" ->
  MovieInfo.WatchedDate (mergeDate ts (dateOf ts) e)
  = match timeValue ts with
    | Some t2 => if t1 <? t2 then dateOf ts else MovieInfo.WatchedDate e
    | None => MovieInfo.WatchedDate e
    end.
Proof.
  intros V1 Hd. destruct (timeValue_Some _ _ V1) as (Pe & _).
  apply String.eqb_neq in Hd. unfold mergeDate. rewrite Pe, Hd. simpl.
  destruct (present ts) eqn:P; simpl.
  - rewrite Date_gt_timeValue, V1 by assumption.
    destruct (timeValue ts) as [t2|]; [|reflexivity].
    now destruct (t1 <? t2).
  - now rewrite (timeValue_absent ts P).
Qed.

(** X7. A merge empties a date in one case only.  Merging a rating entry
    into a record that has a date leaves the record without a date
    exactly when the entry's [rated_at] is a non-empty string that is no
    date and the record retains no watch timestamp. *)
Theorem merge_empties_date_only_on_invalid_rated_at (ts : option string)
  (e : MovieInfo.t) :
  MovieInfo.WatchedDate e <> "" ->
  (MovieInfo.WatchedDate (mergeDate ts (dateOf ts) e) = "" <->
   present ts = true /\ timeValue ts = None /\
   present (MovieInfo._lastWatchedTimestamp e) = false).
Proof.
  intro Hd. pose proof (dateOf_empty ts) as He.
  rewrite String.eqb_eq in He.
  destruct (present (MovieInfo._lastWatchedTimestamp e)) eqn:Pe.
  - split; [|intros (_ & _ & [=])]. intro H. exfalso.
    unfold mergeDate in H. rewrite Pe in H. simpl in H.
    apply String.eqb_neq in Hd. rewrite Hd in H. simpl in H.
    destruct (present ts && Date_gt ts (MovieInfo._lastWatchedTimestamp e)) eqn:C.
    + apply andb_true_iff in C as [P G].
      rewrite Date_gt_timeValue in G by assumption.
      simpl in H. apply He in H. now rewrite H in G.
    + apply String.eqb_neq in Hd. contradiction.
  - rewrite mergeDate_no_retained by assumption.
    destruct (present ts) eqn:P.
    + rewrite He. tauto.
    + split; [contradiction | intros ([=] & _)].
Qed.

(** The last entry that hits decides: a fold whose step overwrites a
    projection of the state on a hit and keeps it otherwise. *)
Lemma fold_last_hit {A S : Type} (step : S -> A -> S) (hit : A -> bool)
  (proj : S -> string) (val : A -> string) (Inv : S -> Prop) (l : list A) :
  (forall s a, In a l -> Inv s ->
               Inv (step s a) /\
               proj (step s a) = if hit a then val a else proj s) ->
  forall s, Inv s ->
            proj (fold_left step l s)
            = match lastOf (filter hit l) with
              | Some a => val a
              | None => proj s
              end.
Proof.
  induction l as [|x l IH]; intros Hstep s Hs; [reflexivity|].
  simpl fold_left. destruct (Hstep s x (or_introl eq_refl) Hs) as (Hinv & Hproj).
  rewrite IH; [| intros s' a Ha; apply Hstep; now right | assumption].
  simpl filter. destruct (hit x).
  - rewrite lastOf_cons, Hproj. now destruct (lastOf (filter hit l)).
  - rewrite Hproj. reflexivity.
Qed.

(** X8. The date of a record that retains no watch timestamp: a movie
    that was rated only, or whose last watched entry has no
    [last_watched_at].  Its date is the formatted [rated_at] of the last
    rating entry of the key that has a [rated_at], be it a date or not,
    and the empty string when no rating entry of the key has one. *)
Theorem date_without_watch_timestamp (ws : list Watched.item)
  (rs : list Rating.item) (k : value) :
  (forall w, lastOf (eventsOf watchedKey k ws) = Some w ->
             present (Watched.last_watched_at w) = false) ->
  exists st,
    mergeMovies (map Some ws) (map Some rs) = Ok st /\
    forall info,
      JsMap.get k (mergedMovies st) = Some info ->
      MovieInfo.WatchedDate info
      = match lastOf (filter hasRatedAt (eventsOf ratingKey k rs)) with
        | Some r => fst (formatDate (Rating.rated_at r))
        | None => ""
        end.
Proof.
  intro Hw. exists (run ratingItem rs (run watchedItem ws initial)).
  split; [apply mergeMovies_objects|]. intros info Hget.
  rewrite get_merged, fold_ratingOn_events in Hget.
  change (MovieInfo.WatchedDate info) with (dateOfRecord (Some info)).
  rewrite <- Hget.
  set (o0 := fold_left (fun o item => watchedOn k item o) ws None) in *.
  assert (H0 : (forall e, o0 = Some e ->
                          present (MovieInfo._lastWatchedTimestamp e) = false)
               /\ dateOfRecord o0 = "").
  { unfold o0. rewrite fold_watchedOn.
    destruct (lastOf (eventsOf watchedKey k ws)) as [w|] eqn:Hlast.
    - specialize (Hw w eq_refl). unfold watchedRecord.
      destruct (movie_ids_trakt (Watched.movie w)) as [[mv i]|].
      + split; [now intros e [= <-]|]. simpl. now apply dateOf_absent.
      + split; [discriminate | reflexivity].
    - split; [discriminate | reflexivity]. }
  destruct H0 as (Hinv0 & Hdate0).
  rewrite (fold_last_hit (fun o item => ratingOn k item o) hasRatedAt
             dateOfRecord (fun r => dateOf (Rating.rated_at r))
             (fun o => forall e, o = Some e ->
                                 present (MovieInfo._lastWatchedTimestamp e) = false)).
  - now rewrite Hdate0.
  - intros o r Hin Hinv.
    destruct (ratingOn_same k r o (eventsOf_In_key _ _ _ _ Hin))
      as (mv & i & _ & _ & ->).
    unfold hasRatedAt. destruct o as [e|].
    + specialize (Hinv e eq_refl). split.
      * intros e' [= <-].
        destruct (unchangedByMerge_merge (Rating.rated_at r)
                    (dateOf (Rating.rated_at r))
                    (js_or (Rating.rating r) (VString "")) e)
          as (_ & _ & _ & _ & _ & _ & ->).
        assumption.
      * simpl. now rewrite mergeDate_no_retained.
    + split; [now intros e' [= <-]|]. simpl.
      destruct (present (Rating.rated_at r)) eqn:P; [reflexivity|].
      now apply dateOf_absent.
  - assumption.
Qed.

(** X9. The date of a record that retains a valid watch timestamp.
    Every rating entry is compared with the watch timestamp, not with
    the date the record has by then: the date is the formatted
    [rated_at] of the last rating entry of the key whose [rated_at] is a
    date strictly after the watch timestamp, and the formatted
    [last_watched_at] when there is none. *)
Theorem date_with_watch_timestamp (ws : list Watched.item)
  (rs : list Rating.item) (k : value) (w : Watched.item) (t1 : Z) :
  lastOf (eventsOf watchedKey k ws) = Some w ->
  timeValue (Watched.last_watched_at w) = Some t1 ->
  exists st info,
    mergeMovies (map Some ws) (map Some rs) = Ok st /\
    JsMap.get k (mergedMovies st) = Some info /\
    MovieInfo.WatchedDate info
    = match lastOf (filter (ratedAfter t1) (eventsOf ratingKey k rs)) with
      | Some r => fst (formatDate (Rating.rated_at r))
      | None => fst (formatDate (Watched.last_watched_at w))
      end.
Proof.
  intros Hlast V1. exists (run ratingItem rs (run watchedItem ws initial)).
  pose proof (lastOf_eventsOf _ _ _ _ Hlast) as Hkey.
  pose proof (get_merged k ws rs) as Hget.
  rewrite fold_ratingOn_events, fold_watchedOn, Hlast in Hget.
  unfold watchedRecord in Hget. unfold watchedKey in Hkey.
  destruct (movie_ids_trakt (Watched.movie w)) as [[mv i]|]; [|discriminate].
  set (e0 := watchedInfo mv i w (fst (formatDate (Watched.last_watched_at w)))) in *.
  destruct (fold_ratingOn_Some k (eventsOf ratingKey k rs) e0)
    as (info & Hfold & _).
  rewrite Hfold in Hget. exists info.
  split; [apply mergeMovies_objects|]. split; [exact Hget|].
  change (MovieInfo.WatchedDate info) with (dateOfRecord (Some info)).
  rewrite <- Hfold.
  assert (Hne : forall ts t, timeValue ts = Some t -> dateOf ts <> "").
  { intros ts t V H. apply String.eqb_eq in H. apply dateOf_empty in H. congruence. }
  rewrite (fold_last_hit (fun o item => ratingOn k item o) (ratedAfter t1)
             dateOfRecord (fun r => dateOf (Rating.rated_at r))
             (fun o => exists e, o = Some e /\
                                 MovieInfo._lastWatchedTimestamp e
                                 = Watched.last_watched_at w /\
                                 MovieInfo.WatchedDate e <> "")).
  - reflexivity.
  - intros o r Hin (e & -> & Hts & Hd).
    destruct (ratingOn_same k r (Some e) (eventsOf_In_key _ _ _ _ Hin))
      as (mv' & i' & _ & _ & ->).
    assert (Hdate :
             MovieInfo.WatchedDate
               (mergeDate (Rating.rated_at r) (dateOf (Rating.rated_at r))
                  (MovieInfo.with_Rating10 (js_or (Rating.rating r) (VString "")) e))
             = if ratedAfter t1 r then dateOf (Rating.rated_at r)
               else MovieInfo.WatchedDate e).
    { rewrite (mergeDate_retained _ _ t1); [| simpl; now rewrite Hts | assumption].
      unfold ratedAfter. simpl.
      now destruct (timeValue (Rating.rated_at r)). }
    split; [|exact Hdate]. eexists. split; [reflexivity|]. split.
    + destruct (unchangedByMerge_merge (Rating.rated_at r)
                  (dateOf (Rating.rated_at r))
                  (js_or (Rating.rating r) (VString "")) e)
        as (_ & _ & _ & _ & _ & _ & ->).
      assumption.
    + rewrite Hdate. unfold ratedAfter.
      destruct (timeValue (Rating.rated_at r)) as [t2|] eqn:V2; [|assumption].
      destruct (t1 <? t2); [now apply (Hne _ t2) | assumption].
  - exists e0. split; [reflexivity|]. split; [reflexivity|].
    now apply (Hne _ t1).
Qed.

End DateFacts.

(** ** Further properties: counters, outcomes and the console *)

Section RunFacts.
Context {host : DateHost}.

Lemma size_set k v m :
  JsMap.size (JsMap.set k v m)
  = if JsMap.has k m then JsMap.size m else S (JsMap.size m).
Proof.
  unfold JsMap.size. induction m as [|[k' v'] m IH]; simpl; [reflexivity|].
  destruct (value_eqb k' k); simpl; [reflexivity|].
  rewrite IH. now destruct (JsMap.has k m).
Qed.

(** One rating entry on the counters and the size of the map. *)
Lemma ratingItem_counts item st :
  (ratingsMergedCount (ratingItem item st) + ratingsAddedCount (ratingItem item st)
   = ratingsMergedCount st + ratingsAddedCount st
     + match ratingKey item with Some _ => 1 | None => 0 end)%nat /\
  (JsMap.size (mergedMovies (ratingItem item st)) + ratingsAddedCount st
   = JsMap.size (mergedMovies st) + ratingsAddedCount (ratingItem item st))%nat.
Proof.
  unfold ratingItem, ratingKey.
  destruct (value_eqb (Rating.type item) (VString "movie")); [|simpl; lia].
  destruct (movie_ids_trakt (Rating.movie item)) as [[mv i]|]; [|simpl; lia].
  destruct (formatDate (Rating.rated_at item)) as [d w]. simpl.
  pose proof (JsMapFacts.has_get (Ids.trakt i) (mergedMovies st)) as Hhas.
  destruct (JsMap.get (Ids.trakt i) (mergedMovies st)); simpl;
    rewrite size_set, Hhas; lia.
Qed.

Lemma run_ratingItem_counts rs st :
  (ratingsMergedCount (run ratingItem rs st) + ratingsAddedCount (run ratingItem rs st)
   = ratingsMergedCount st + ratingsAddedCount st
     + List.length (joinKeys ratingKey rs))%nat /\
  (JsMap.size (mergedMovies (run ratingItem rs st)) + ratingsAddedCount st
   = JsMap.size (mergedMovies st) + ratingsAddedCount (run ratingItem rs st))%nat.
Proof.
  revert st. unfold run. induction rs as [|r rs IH]; intro st; simpl; [lia|].
  destruct (IH (ratingItem r st)) as (H1 & H2).
  destruct (ratingItem_counts r st) as (H3 & H4).
  destruct (ratingKey r); simpl; lia.
Qed.

Lemma run_watchedItem_counts ws st :
  ratingsMergedCount (run watchedItem ws st) = ratingsMergedCount st /\
  ratingsAddedCount (run watchedItem ws st) = ratingsAddedCount st.
Proof.
  revert st. unfold run. induction ws as [|w ws IH]; intro st; simpl; [auto|].
  destruct (IH (watchedItem w st)) as (-> & ->).
  unfold watchedItem.
  destruct (movie_ids_trakt (Watched.movie w)) as [[mv i]|]; [|auto].
  now destruct (formatDate (Watched.last_watched_at w)).
Qed.

(** X10. The counts the run logs.  The merged and the added counter sum
    to the number of rating entries that pass the guard; the map ends
    with as many records as the first loop left plus the added counter;
    the first loop leaves one record per distinct key of the watched
    entries; and as many rows are written as the map has records. *)
Theorem logged_counts (ws : list Watched.item) (rs : list Rating.item) :
  exists st0 st,
    forEach (onEntry watchedItem) (map Some ws) initial = Ok st0 /\
    forEach (onEntry ratingItem) (map Some rs) st0 = Ok st /\
    mergeMovies (map Some ws) (map Some rs) = Ok st /\
    JsMap.size (mergedMovies st0)
    = List.length (firstAppearance (joinKeys watchedKey ws)) /\
    (ratingsMergedCount st + ratingsAddedCount st
     = List.length (joinKeys ratingKey rs))%nat /\
    (JsMap.size (mergedMovies st)
     = JsMap.size (mergedMovies st0) + ratingsAddedCount st)%nat /\
    List.length (records st) = JsMap.size (mergedMovies st).
Proof.
  exists (run watchedItem ws initial),
    (run ratingItem rs (run watchedItem ws initial)).
  split; [apply forEach_onEntry|]. split; [apply forEach_onEntry|].
  split; [apply mergeMovies_objects|].
  destruct (run_ratingItem_counts rs (run watchedItem ws initial)) as (H1 & H2).
  destruct (run_watchedItem_counts ws initial) as (H3 & H4).
  rewrite H3, H4 in H1. rewrite H4 in H2. simpl in H1, H2.
  repeat split; try lia.
  - change (JsMap.size (mergedMovies (run watchedItem ws initial)))
      with (List.length (mergedMovies (run watchedItem ws initial))).
    rewrite <- (length_map fst).
    change (map fst (mergedMovies (run watchedItem ws initial)))
      with (JsMap.keys (mergedMovies (run watchedItem ws initial))).
    rewrite (keys_run watchedItem watchedKey keys_watchedItem).
    simpl. now rewrite <- firstAppearance_fold.
  - unfold records, JsMap.values, JsMap.size. now rewrite !length_map.
Qed.

Lemma forEach_null {I : Type} (body : I -> state -> state) l st :
  In None l -> forEach (onEntry body) l st = Throw TypeError.
Proof.
  revert st. induction l as [|[x|] l IH]; intros st Hin; simpl.
  - contradiction.
  - apply IH. destruct Hin as [H | H]; [discriminate | assumption].
  - reflexivity.
Qed.



Lemma flat_map_nil {A B : Type} (f : A -> list B) l :
  flat_map f l = [] <-> forall x, In x l -> f x = [].
Proof.
  induction l as [|x l IH]; simpl.
  - split; [contradiction | reflexivity].
  - split.
    + intros H y [<- | Hy]; apply app_eq_nil in H as [H1 H2]; [assumption|].
      now apply IH.
    + intro H. rewrite (H x (or_introl eq_refl)). simpl. apply IH.
      intros y Hy. apply H. now right.
Qed.

Lemma flat_map_map {A B C : Type} (f : B -> list C) (g : A -> B) l :
  flat_map f (map g l) = flat_map (fun x => f (g x)) l.
Proof. induction l as [|x l IH]; simpl; congruence. Qed.

(** X12. A quiet run.  Nothing is sent to [console.warn] exactly when
    every entry passes the guard of its loop and each timestamp of an
    entry is absent, empty or a date. *)
Theorem console_empty_iff (ws : list Watched.item) (rs : list Rating.item) :
  exists st,
    mergeMovies (map Some ws) (map Some rs) = Ok st /\
    (console st = [] <->
     (forall w, In w ws ->
                watchedKey w <> None /\ silent (Watched.last_watched_at w)) /\
     (forall r, In r rs ->
                ratingKey r <> None /\ silent (Rating.rated_at r))).
Proof.
  exists (run ratingItem rs (run watchedItem ws initial)).
  split; [apply mergeMovies_objects|].
  rewrite (console_mergeMovies _ _ _ (mergeMovies_objects ws rs)).
  rewrite !flat_map_map.
  split.
  - intro H. apply app_eq_nil in H as [Hw Hr].
    rewrite flat_map_nil in Hw. rewrite flat_map_nil in Hr. split.
    + intros w Hin. specialize (Hw w Hin). simpl in Hw.
      destruct (watchedKey w); [|discriminate].
      split; [discriminate | now apply snd_formatDate_nil].
    + intros r Hin. specialize (Hr r Hin). simpl in Hr.
      destruct (ratingKey r); [|discriminate].
      split; [discriminate | now apply snd_formatDate_nil].
  - intros [Hw Hr].
    rewrite (proj2 (flat_map_nil _ ws)), (proj2 (flat_map_nil _ rs));
      [reflexivity | |].
    + intros r Hin. destruct (Hr r Hin) as [Hk Hs]. simpl.
      destruct (ratingKey r); [now apply snd_formatDate_nil | contradiction].
    + intros w Hin. destruct (Hw w Hin) as [Hk Hs]. simpl.
      destruct (watchedKey w); [now apply snd_formatDate_nil | contradiction].
Qed.

End RunFacts.

(** ** Further properties: what the rows hold *)

Section RowFacts.
Context {host : DateHost}.

Lemma In_set k v kv m :
  In kv (JsMap.set k v m) -> In kv m \/ snd kv = v.
Proof.
  induction m as [|[k0 v0] m IH]; simpl.
  - intros [<- | []]. now right.
  - destruct (value_eqb k0 k); simpl.
    + intros [<- | H]; [now right | left; now right].
    + intros [<- | H]; [left; now left|].
      destruct (IH H) as [H' | H']; [left; now right | now right].
Qed.

Lemma In_values e (m : JsMap.t) :
  In e (JsMap.values m) <-> exists k, In (k, e) m.
Proof.
  unfold JsMap.values. rewrite in_map_iff. split.
  - intros ([k e'] & <- & H). now exists k.
  - intros (k & H). now exists (k, e).
Qed.

(** A property of the records that the two object literals establish and
    a merge keeps holds of every value of the map after the loops. *)
Lemma values_invariant (P : MovieInfo.t -> Prop) ws rs :
  (forall w mv i,
      In w ws -> movie_ids_trakt (Watched.movie w) = Some (mv, i) ->
      P (watchedInfo mv i w (dateOf (Watched.last_watched_at w)))) ->
  (forall r mv i,
      In r rs -> movie_ids_trakt (Rating.movie r) = Some (mv, i) ->
      P (ratedInfo mv i (js_or (Rating.rating r) (VString ""))
           (dateOf (Rating.rated_at r)))) ->
  (forall r e,
      In r rs -> P e ->
      P (mergeDate (Rating.rated_at r) (dateOf (Rating.rated_at r))
           (MovieInfo.with_Rating10 (js_or (Rating.rating r) (VString "")) e))) ->
  forall e,
    In e (JsMap.values (mergedMovies (run ratingItem rs (run watchedItem ws initial)))) ->
    P e.
Proof.
  intros Hw Hr Hm.
  assert (Hwatched : forall l st,
             (forall w, In w l -> In w ws) ->
             (forall e, In e (JsMap.values (mergedMovies st)) -> P e) ->
             forall e, In e (JsMap.values (mergedMovies (run watchedItem l st))) -> P e).
  { unfold run. induction l as [|w l IH]; intros st Hl Hst; [exact Hst|].
    simpl. apply IH; [intros; apply Hl; now right|].
    intros e He. rewrite mergedMovies_watchedItem in He.
    destruct (movie_ids_trakt (Watched.movie w)) as [[mv i]|] eqn:G; [|now apply Hst].
    apply In_values in He as (k & He). apply In_set in He as [He | He].
    - apply Hst. apply In_values. eauto.
    - simpl in He. subst e. apply Hw; [apply Hl; now left | assumption]. }
  assert (Hrated : forall l st,
             (forall r, In r l -> In r rs) ->
             (forall e, In e (JsMap.values (mergedMovies st)) -> P e) ->
             forall e, In e (JsMap.values (mergedMovies (run ratingItem l st))) -> P e).
  { unfold run. induction l as [|r l IH]; intros st Hl Hst; [exact Hst|].
    simpl. apply IH; [intros; apply Hl; now right|].
    intros e He. unfold ratingItem in He.
    destruct (value_eqb (Rating.type r) (VString "movie")); [|now apply Hst].
    destruct (movie_ids_trakt (Rating.movie r)) as [[mv i]|] eqn:G; [|now apply Hst].
    destruct (formatDate (Rating.rated_at r)) as [d wn] eqn:F.
    assert (Hd : d = dateOf (Rating.rated_at r)) by (unfold dateOf; now rewrite F).
    subst d.
    destruct (JsMap.get (Ids.trakt i) (mergedMovies st)) as [e0|] eqn:Hget;
      simpl in He; apply In_values in He as (k & He);
      apply In_set in He as [He | He];
      try (apply Hst; apply In_values; eauto; fail);
      simpl in He; subst e.
    - apply Hm; [apply Hl; now left|]. apply Hst. apply In_values.
      exists (Ids.trakt i). now apply JsMapFacts.get_In.
    - apply Hr; [apply Hl; now left | assumption]. }
  apply Hrated; [auto|]. apply Hwatched; [auto|]. intros e [].
Qed.

Lemma defaulted_js_or v : defaulted (js_or v (VString "")) = true.
Proof.
  unfold defaulted, js_or. destruct (truthy v) eqn:T; [now rewrite T | reflexivity].
Qed.

(** X13. No row carries [undefined], [null], [false] or [0]: the imdb
    and tmdb ids, the title, the year and the rating of every row that
    is written are truthy values or the empty string. *)
Theorem rows_have_defaulted_fields (ws : list Watched.item)
  (rs : list Rating.item) :
  exists rows warnings,
    processTraktData (Some (map Some ws)) (Some (map Some rs))
    = Written rows warnings /\
    forall row, In row rows -> cleanRow row = true.
Proof.
  unfold processTraktData. rewrite mergeMovies_objects. do 2 eexists.
  split; [reflexivity|]. intros row Hin. unfold records in Hin.
  apply in_map_iff in Hin as (e & <- & He). revert e He.
  apply values_invariant.
  - intros w mv i _ _. unfold cleanRow. simpl. now rewrite !defaulted_js_or.
  - intros r mv i _ _. unfold cleanRow. simpl. now rewrite !defaulted_js_or.
  - intros r e _ He. unfold cleanRow in *.
    destruct (mergeDate_cases (Rating.rated_at r) (dateOf (Rating.rated_at r))
                (MovieInfo.with_Rating10 (js_or (Rating.rating r) (VString "")) e))
      as [-> | ->]; simpl in *;
      rewrite defaulted_js_or, andb_true_r;
      now apply andb_true_iff in He as [He _].
Qed.

(** X14. No date is made up.  The date of every row that is written is
    the empty string or the formatted date of a valid timestamp of the
    input: the [last_watched_at] of a watched entry or the [rated_at] of
    a rating entry. *)
Theorem row_dates_come_from_the_input (ws : list Watched.item)
  (rs : list Rating.item) :
  exists rows warnings,
    processTraktData (Some (map Some ws)) (Some (map Some rs))
    = Written rows warnings /\
    forall row,
      In row rows ->
      Csv.WatchedDate row = "" \/
      exists ts,
        In ts (map Watched.last_watched_at ws ++ map Rating.rated_at rs) /\
        timeValue ts <> None /\
        Csv.WatchedDate row = fst (formatDate ts).
Proof.
  unfold processTraktData. rewrite mergeMovies_objects. do 2 eexists.
  split; [reflexivity|]. intros row Hin. unfold records in Hin.
  apply in_map_iff in Hin as (e & <- & He). simpl Csv.WatchedDate.
  revert e He.
  assert (Hdate : forall ts,
             In ts (map Watched.last_watched_at ws ++ map Rating.rated_at rs) ->
             dateOf ts = "" \/
             exists ts',
               In ts' (map Watched.last_watched_at ws ++ map Rating.rated_at rs) /\
               timeValue ts' <> None /\ dateOf ts = fst (formatDate ts')).
  { intros ts Hts. destruct (timeValue ts) as [t|] eqn:V.
    - right. exists ts. repeat split; [assumption | congruence].
    - left. apply String.eqb_eq. now apply dateOf_empty. }
  apply values_invariant.
  - intros w mv i Hw _. simpl. apply Hdate. apply in_or_app. left. now apply in_map.
  - intros r mv i Hr _. simpl. apply Hdate. apply in_or_app. right. now apply in_map.
  - intros r e Hr He.
    destruct (mergeDate_cases (Rating.rated_at r) (dateOf (Rating.rated_at r))
                (MovieInfo.with_Rating10 (js_or (Rating.rating r) (VString "")) e))
      as [-> | ->]; simpl.
    + exact He.
    + apply Hdate. apply in_or_app. right. now apply in_map.
Qed.

End RowFacts.

(** ** Further properties: a repeated rating entry *)

Section RepeatFacts.
Context {host : DateHost}.

Lemma set_set k v v' m : JsMap.set k v' (JsMap.set k v m) = JsMap.set k v' m.
Proof.
  induction m as [|[k0 v0] m IH]; simpl.
  - now rewrite value_eqb_refl.
  - destruct (value_eqb k0 k) eqn:E; simpl; rewrite E; [reflexivity|].
    now rewrite IH.
Qed.

(** Merging the same rating entry a second time changes nothing. *)
Lemma merge_twice ts x e :
  let e1 := mergeDate ts (dateOf ts) (MovieInfo.with_Rating10 x e) in
  mergeDate ts (dateOf ts) (MovieInfo.with_Rating10 x e1) = e1.
Proof.
  destruct e as [id im tm ti ye ra wd rw lw]. unfold mergeDate. simpl.
  destruct (present ts && (negb (present lw) || Date_gt ts lw)) eqn:C1; simpl.
  - now rewrite C1.
  - destruct ((wd =? "")%string && negb (dateOf ts =? "")%string) eqn:C2; simpl;
      rewrite C1.
    + apply andb_true_iff in C2 as [_ C2]. apply negb_true_iff in C2.
      now rewrite C2.
    + now rewrite C2.
Qed.

Lemma merge_after_create ts x mv i :
  mergeDate ts (dateOf ts)
    (MovieInfo.with_Rating10 x (ratedInfo mv i x (dateOf ts)))
  = ratedInfo mv i x (dateOf ts).
Proof.
  unfold mergeDate. simpl. destruct (present ts); simpl; [reflexivity|].
  now destruct (dateOf ts =? "")%string.
Qed.

Lemma ratingItem_twice item st :
  mergedMovies (ratingItem item (ratingItem item st))
  = mergedMovies (ratingItem item st).
Proof.
  unfold ratingItem at 1.
  destruct (value_eqb (Rating.type item) (VString "movie")) eqn:T;
    [|simpl; reflexivity].
  destruct (movie_ids_trakt (Rating.movie item)) as [[mv i]|] eqn:G;
    [|simpl; reflexivity].
  destruct (formatDate (Rating.rated_at item)) as [d wn] eqn:F.
  assert (Hd : d = dateOf (Rating.rated_at item)) by (unfold dateOf; now rewrite F).
  rewrite get_ratingItem. unfold ratingOn. rewrite T, G, value_eqb_refl.
  fold (dateOf (Rating.rated_at item)).
  unfold ratingItem. rewrite T, G, F.
  destruct (JsMap.get (Ids.trakt i) (mergedMovies st)) as [e|]; simpl;
    rewrite set_set; subst d; f_equal.
  - apply merge_twice.
  - apply merge_after_create.
Qed.

(** The map after a rating entry depends on the map before it only. *)
Lemma mergedMovies_ratingItem_ext item st st' :
  mergedMovies st = mergedMovies st' ->
  mergedMovies (ratingItem item st) = mergedMovies (ratingItem item st').
Proof.
  intro H. unfold ratingItem.
  destruct (value_eqb (Rating.type item) (VString "movie")); [|exact H].
  destruct (movie_ids_trakt (Rating.movie item)) as [[mv i]|]; [|exact H].
  destruct (formatDate (Rating.rated_at item)) as [d wn]. rewrite H.
  now destruct (JsMap.get (Ids.trakt i) (mergedMovies st')).
Qed.

Lemma mergedMovies_run_ext rs st st' :
  mergedMovies st = mergedMovies st' ->
  mergedMovies (run ratingItem rs st) = mergedMovies (run ratingItem rs st').
Proof.
  revert st st'. unfold run. induction rs as [|r rs IH]; intros st st' H; [exact H|].
  simpl. apply IH. now apply mergedMovies_ratingItem_ext.
Qed.

(** X15. A rating entry that is repeated right after itself changes no
    row: the rows written are those of the input without the repeat. *)
Theorem repeated_rating_changes_no_row (ws : list Watched.item)
  (rs1 rs2 : list Rating.item) (r : Rating.item) :
  exists rows warnings warnings',
    processTraktData (Some (map Some ws)) (Some (map Some (rs1 ++ r :: r :: rs2)))
    = Written rows warnings /\
    processTraktData (Some (map Some ws)) (Some (map Some (rs1 ++ r :: rs2)))
    = Written rows warnings'.
Proof.
  unfold processTraktData. rewrite !mergeMovies_objects. do 3 eexists.
  split; [reflexivity|]. f_equal. unfold records. do 2 f_equal.
  unfold run. rewrite !fold_left_app. simpl.
  apply (mergedMovies_run_ext rs2). symmetry. apply ratingItem_twice.
Qed.

End RepeatFacts.

(** ** The further properties at sample entries, on the reference host *)

Lemma formatDate_pads_month_and_day_witness :
  "2021-06-01T12:00:00.000Z" <> "" /\
  @Date_parse Utc.host "2021-06-01T12:00:00.000Z" = Some 1622548800000 /\
  0 <= @getMonth Utc.host 1622548800000 <= 11 /\
  1 <= @getDate Utc.host 1622548800000 <= 31 /\
  exists mm dd,
    @formatDate Utc.host (Some "2021-06-01T12:00:00.000Z")
    = ((String_of (@getFullYear Utc.host 1622548800000) ++ "-" ++ mm ++ "-" ++ dd)%string,
       []) /\
    String.length mm = 2%nat /\ String.length dd = 2%nat /\
    mm = (if @getMonth Utc.host 1622548800000 + 1 <? 10
          then String "0" (String_of (@getMonth Utc.host 1622548800000 + 1))
          else String_of (@getMonth Utc.host 1622548800000 + 1)) /\
    dd = (if @getDate Utc.host 1622548800000 <? 10
          then String "0" (String_of (@getDate Utc.host 1622548800000))
          else String_of (@getDate Utc.host 1622548800000)).
Proof.
  split; [discriminate|]. split; [reflexivity|].
  split; [vm_compute; split; discriminate|].
  split; [vm_compute; split; discriminate|].
  apply (@formatDate_pads_month_and_day Utc.host "2021-06-01T12:00:00.000Z"
           1622548800000);
    [discriminate | reflexivity | vm_compute; split; discriminate
     | vm_compute; split; discriminate].
Defined.

Lemma record_depends_on_its_entries_only_witness :
  eventsOf watchedKey (VNumber 1) [Sample.watched1]
  = eventsOf watchedKey (VNumber 1) [Sample.watched_no_movie; Sample.watched1] /\
  eventsOf ratingKey (VNumber 1) [Sample.rated1]
  = eventsOf ratingKey (VNumber 1) [Sample.rated2; Sample.rated1; Sample.rated_show] /\
  exists st st',
    @mergeMovies Utc.host (map Some [Sample.watched1]) (map Some [Sample.rated1])
    = Ok st /\
    @mergeMovies Utc.host (map Some [Sample.watched_no_movie; Sample.watched1])
      (map Some [Sample.rated2; Sample.rated1; Sample.rated_show])
    = Ok st' /\
    JsMap.get (VNumber 1) (mergedMovies st) = JsMap.get (VNumber 1) (mergedMovies st').
Proof.
  split; [reflexivity|]. split; [reflexivity|].
  apply (@record_depends_on_its_entries_only Utc.host); reflexivity.
Defined.

Lemma watched_only_record_witness :
  lastOf (eventsOf watchedKey (VNumber 1) [Sample.watched1]) = Some Sample.watched1 /\
  eventsOf ratingKey (VNumber 1) [Sample.rated2] = [] /\
  exists st mv i,
    @mergeMovies Utc.host (map Some [Sample.watched1]) (map Some [Sample.rated2])
    = Ok st /\
    movie_ids_trakt (Watched.movie Sample.watched1) = Some (mv, i) /\
    JsMap.get (VNumber 1) (mergedMovies st)
    = Some (watchedInfo mv i Sample.watched1
              (fst (@formatDate Utc.host (Watched.last_watched_at Sample.watched1)))) /\
    In {| Csv.imdbID := js_or (Ids.imdb i) (VString "");
          Csv.tmdbID := js_or (Ids.tmdb i) (VString "");
          Csv.Title := js_or (Movie.title mv) (VString "");
          Csv.Year := js_or (Movie.year mv) (VString "");
          Csv.Rating10 := VString "";
          Csv.WatchedDate :=
            fst (@formatDate Utc.host (Watched.last_watched_at Sample.watched1));
          Csv.Rewatch :=
            if plays_gt_1 (Watched.plays Sample.watched1) then "Yes" else "No" |}
       (records st).
Proof.
  split; [reflexivity|]. split; [reflexivity|].
  apply (@watched_only_record Utc.host [Sample.watched1] [Sample.rated2]
           (VNumber 1) Sample.watched1); reflexivity.
Defined.

Lemma rated_only_record_witness :
  eventsOf watchedKey (VNumber 2) [Sample.watched1] = [] /\
  eventsOf ratingKey (VNumber 2) [Sample.rated1; Sample.rated2; Sample.rated2_garbage]
  = Sample.rated2 :: [Sample.rated2_garbage] /\
  exists st info mv i,
    @mergeMovies Utc.host (map Some [Sample.watched1])
      (map Some [Sample.rated1; Sample.rated2; Sample.rated2_garbage]) = Ok st /\
    JsMap.get (VNumber 2) (mergedMovies st) = Some info /\
    movie_ids_trakt (Rating.movie Sample.rated2) = Some (mv, i) /\
    MovieInfo.traktId info = VNumber 2 /\
    MovieInfo.imdbID info = js_or (Ids.imdb i) (VString "") /\
    MovieInfo.tmdbID info = js_or (Ids.tmdb i) (VString "") /\
    MovieInfo.Title info = js_or (Movie.title mv) (VString "") /\
    MovieInfo.Year info = js_or (Movie.year mv) (VString "") /\
    MovieInfo.Rewatch info = false /\
    MovieInfo._lastWatchedTimestamp info = None.
Proof.
  split; [reflexivity|]. split; [reflexivity|].
  apply (@rated_only_record Utc.host [Sample.watched1]
           [Sample.rated1; Sample.rated2; Sample.rated2_garbage]
           [Sample.rated2_garbage] (VNumber 2) Sample.rated2); reflexivity.
Defined.

Lemma merge_empties_date_only_on_invalid_rated_at_witness :
  MovieInfo.WatchedDate Seeded.rated <> "" /\
  (MovieInfo.WatchedDate
     (@mergeDate Utc.host (Some "garbage") (@dateOf Utc.host (Some "garbage"))
        Seeded.rated) = "" <->
   present (Some "garbage") = true /\ @timeValue Utc.host (Some "garbage") = None /\
   present (MovieInfo._lastWatchedTimestamp Seeded.rated) = false).
Proof.
  split; [discriminate|].
  apply (@merge_empties_date_only_on_invalid_rated_at Utc.host (Some "garbage")
           Seeded.rated).
  discriminate.
Defined.

Lemma date_without_watch_timestamp_witness :
  (forall w,
      lastOf (eventsOf watchedKey (VNumber 2) [Sample.watched1]) = Some w ->
      present (Watched.last_watched_at w) = false) /\
  exists st,
    @mergeMovies Utc.host (map Some [Sample.watched1])
      (map Some [Sample.rated2; Sample.rated2_garbage]) = Ok st /\
    forall info,
      JsMap.get (VNumber 2) (mergedMovies st) = Some info ->
      MovieInfo.WatchedDate info
      = match lastOf (filter hasRatedAt
                        (eventsOf ratingKey (VNumber 2)
                           [Sample.rated2; Sample.rated2_garbage])) with
        | Some r => fst (@formatDate Utc.host (Rating.rated_at r))
        | None => ""
        end.
Proof.
  split; [intros w H; discriminate H|].
  apply (@date_without_watch_timestamp Utc.host [Sample.watched1]
           [Sample.rated2; Sample.rated2_garbage] (VNumber 2)).
  intros w H. discriminate H.
Defined.

Lemma date_with_watch_timestamp_witness :
  lastOf (eventsOf watchedKey (VNumber 1) [Sample.watched1]) = Some Sample.watched1 /\
  @timeValue Utc.host (Watched.last_watched_at Sample.watched1) = Some 1609459200000 /\
  exists st info,
    @mergeMovies Utc.host (map Some [Sample.watched1])
      (map Some [Sample.rated1; Sample.unrated1]) = Ok st /\
    JsMap.get (VNumber 1) (mergedMovies st) = Some info /\
    MovieInfo.WatchedDate info
    = match lastOf (filter (@ratedAfter Utc.host 1609459200000)
                      (eventsOf ratingKey (VNumber 1)
                         [Sample.rated1; Sample.unrated1])) with
      | Some r => fst (@formatDate Utc.host (Rating.rated_at r))
      | None => fst (@formatDate Utc.host (Watched.last_watched_at Sample.watched1))
      end.
Proof.
  split; [reflexivity|]. split; [reflexivity|].
  apply (@date_with_watch_timestamp Utc.host [Sample.watched1]
           [Sample.rated1; Sample.unrated1] (VNumber 1) Sample.watched1
           1609459200000); reflexivity.
Defined.

(** ** The later timestamp and the later date *)

Section LaterDate.
Context {host : DateHost}.

Lemma dateBefore_neither v1 v2 :
  dateBefore v1 v2 = false -> dateBefore v2 v1 = false ->
  calendarDate v1 = calendarDate v2.
Proof.
  unfold dateBefore, calendarDate. intros H1 H2.
  assert (getFullYear v1 = getFullYear v2 /\ getMonth v1 = getMonth v2
          /\ getDate v1 = getDate v2) as (-> & -> & ->); [|reflexivity].
  destruct (Z.ltb_spec (getFullYear v1) (getFullYear v2)); [discriminate|].
  destruct (Z.ltb_spec (getFullYear v2) (getFullYear v1)); [discriminate|].
  assert (Ey : getFullYear v1 = getFullYear v2) by lia.
  rewrite Ey, Z.eqb_refl in *. simpl in H1, H2.
  destruct (Z.ltb_spec (getMonth v1) (getMonth v2)); [discriminate|].
  destruct (Z.ltb_spec (getMonth v2) (getMonth v1)); [discriminate|].
  assert (Em : getMonth v1 = getMonth v2) by lia.
  rewrite Em, Z.eqb_refl in *. simpl in H1, H2.
  apply Z.ltb_ge in H1, H2. repeat split; lia.
Qed.

(** Where the local calendar date of the host does not step back
    between the two timestamps, the date of the later timestamp is the
    later of the two dates. *)
Lemma laterDate_laterOfDates (t1 t2 : option string) :
  (forall v1 v2,
      timeValue t1 = Some v1 -> timeValue t2 = Some v2 ->
      (v1 <= v2 -> dateBefore v2 v1 = false) /\
      (v2 <= v1 -> dateBefore v1 v2 = false)) ->
  laterDate t1 t2 = laterOfDates t1 t2.
Proof.
  intro Hmono. unfold laterDate, laterOfDates.
  destruct (timeValue t1) as [v1|] eqn:V1; [|reflexivity].
  destruct (timeValue t2) as [v2|] eqn:V2; [|reflexivity].
  destruct (Hmono v1 v2 eq_refl eq_refl) as (H12 & H21).
  destruct (Z.ltb_spec v1 v2) as [Hlt | Hge].
  - destruct (dateBefore v1 v2) eqn:B; [reflexivity|].
    rewrite !dateOf_timeValue, V1, V2. symmetry.
    apply dateBefore_neither; [assumption | apply H12; lia].
  - now rewrite (H21 Hge).
Qed.

End LaterDate.

(** C3 fails as stated: on the host whose calendar steps back, movie 3
    is watched on 7 November and rated half an hour later, on
    6 November by the local clock.  The later of the two formatted dates
    is 2010-11-07; the row carries 2010-11-06, the date of the later
    timestamp. *)
Lemma later_timestamp_with_the_earlier_date :
  eventsOf watchedKey (VNumber 3) [Newfoundland.watched3] = [Newfoundland.watched3] /\
  eventsOf ratingKey (VNumber 3) [Newfoundland.rated3] = [Newfoundland.rated3] /\
  @formatDate Newfoundland.host (Watched.last_watched_at Newfoundland.watched3)
  = ("2010-11-07", []) /\
  @formatDate Newfoundland.host (Rating.rated_at Newfoundland.rated3)
  = ("2010-11-06", []) /\
  @laterOfDates Newfoundland.host (Watched.last_watched_at Newfoundland.watched3)
    (Rating.rated_at Newfoundland.rated3) = "2010-11-07" /\
  @processTraktData Newfoundland.host (Some [Some Newfoundland.watched3])
    (Some [Some Newfoundland.rated3])
  = Written
      [{| Csv.imdbID := VString "tt3"; Csv.tmdbID := VString "";
          Csv.Title := VString "C"; Csv.Year := VNumber 2010;
          Csv.Rating10 := VNumber 6; Csv.WatchedDate := "2010-11-06";
          Csv.Rewatch := "No" |}]
      [].
Proof. repeat split. Qed.

(** C8. A [null] entry is not skipped.  An entry that is [null] has no
    identifier block, and the guard of either loop reads a property of
    it before any test: the run is rejected with a TypeError wherever
    the entry stands, and nothing is written, where the run without the
    entry writes its row. *)
Theorem null_entry_rejects_the_run :
  (forall (host : DateHost) ws1 ws2 rs,
      @processTraktData host (Some (ws1 ++ None :: ws2)) (Some rs)
      = Rejected TypeError) /\
  (forall (host : DateHost) ws rs1 rs2,
      @processTraktData host (Some ws) (Some (rs1 ++ None :: rs2))
      = Rejected TypeError) /\
  @processTraktData Utc.host (Some [Some Sample.watched1; None])
    (Some [Some Sample.rated1])
  = Rejected TypeError /\
  @processTraktData Utc.host (Some [Some Sample.watched1])
    (Some [Some Sample.rated1])
  = Written
      [{| Csv.imdbID := VString "tt1"; Csv.tmdbID := VString "";
          Csv.Title := VString "A"; Csv.Year := VNumber 2000;
          Csv.Rating10 := VNumber 8; Csv.WatchedDate := "2021-06-01";
          Csv.Rewatch := "Yes" |}]
      [].
Proof.
  split; [|split; [|split; reflexivity]].
  - intros host ws1 ws2 rs. unfold processTraktData, mergeMovies.
    rewrite (forEach_null watchedItem); [reflexivity|].
    apply in_or_app. right. now left.
  - intros host ws rs1 rs2. unfold processTraktData, mergeMovies.
    destruct (forEach (onEntry watchedItem) ws initial) as [st0|[]];
      [|reflexivity].
    simpl. rewrite (forEach_null ratingItem); [reflexivity|].
    apply in_or_app. right. now left.
Qed.
